(** * Flask-Started: the movie catalog application (app.py)

    A shallow embedding of the request handlers of [app.py] and of the
    parts of Flask, Flask-Login, Flask-SQLAlchemy, werkzeug and markupsafe
    they call, followed by the properties of the specification.

    Conventions.
    - A Python [str] is a [string]; one [ascii] stands for one character, so
      [String.length] is Python's [len].
    - A value that may be [None] is an [option].
    - A view function runs in the monad [M]: it reads and updates a [world]
      (the two tables, the signed session cookie with its flash queue) and
      either returns a value or raises an exception.
    - The tables are lists in primary-key order, which is the order SQLite
      returns rows in for a query without ORDER BY. *)

From stdpp Require Import base strings list gmap.
From Stdlib Require Import Ascii DecimalString.


(** ** Data model *)

(** [class User(db.Model, UserMixin)]: [username] and [password_hash] are
    nullable columns and [forge] creates a user with neither. *)
Module User.
Record t := mk {
  id : nat;
  name : string;
  username : option string;
  password_hash : option string
}.
End User.

(** [class Movie(db.Model)] *)
Module Movie.
Record t := mk {
  id : nat;
  title : string;
  year : string
}.
End Movie.

#[global] Instance User_eq_dec : EqDecision User.t.
Proof. solve_decision. Defined.

#[global] Instance Movie_eq_dec : EqDecision Movie.t.
Proof. solve_decision. Defined.

(** The state a request can observe and change: the [user] and [movie]
    tables (as committed), and the session cookie, which holds Flask-Login's
    ['_user_id'] entry and Flask's ['_flashes'] queue of
    (category, message) pairs. *)
Record world := World {
  users : list User.t;
  movies : list Movie.t;
  session_user_id : option nat;
  flashes : list (string * string)
}.

Definition set_users (f : list User.t → list User.t) (w : world) : world :=
  World (f (users w)) (movies w) (session_user_id w) (flashes w).

Definition set_movies (f : list Movie.t → list Movie.t) (w : world) : world :=
  World (users w) (f (movies w)) (session_user_id w) (flashes w).

Definition set_session_user_id (s : option nat) (w : world) : world :=
  World (users w) (movies w) s (flashes w).

Definition set_flashes (f : list (string * string) → list (string * string))
    (w : world) : world :=
  World (users w) (movies w) (session_user_id w) (f (flashes w)).

(** ** Exceptions and the request monad *)

Inductive exn :=
| HTTPException (code : nat)      (* abort(404), BadRequestKeyError (400), 405 *)
| AttributeError                  (* attribute access on None *)
| BuildError (endpoint : string)  (* url_for on an endpoint that is not routed *)
| OverflowError.                  (* an integer too large for SQLite *)

Inductive result (A : Type) :=
| Return (a : A)
| Raise (e : exn).
Arguments Return {A} a.
Arguments Raise {A} e.

Definition M (A : Type) : Type := world → result A * world.

#[global] Instance M_ret : MRet M := λ A a w, (Return a, w).

#[global] Instance M_bind : MBind M := λ A B f m w,
  match m w with
  | (Return a, w') => f a w'
  | (Raise e, w') => (Raise e, w')
  end.

Definition raise {A : Type} (e : exn) : M A := λ w, (Raise e, w).

Definition get_world : M world := λ w, (Return w, w).

Definition modify (f : world → world) : M unit := λ w, (Return (), f w).

(** Lift a pure computation that may raise. *)
Definition lift {A : Type} (r : result A) : M A := λ w, (r, w).

(** ** The request *)

Inductive method := GET | POST.

Definition method_eqb (a b : method) : bool :=
  match a, b with
  | GET, GET | POST, POST => true
  | _, _ => false
  end.

(** [request.method], [request.path] and [request.form] (for a key sent
    more than once, the first value, as [MultiDict] lookups return). *)
Record request := Request {
  req_method : method;
  req_path : string;
  form : gmap string string
}.

(** [request.form[key]]: a missing key raises [BadRequestKeyError], an
    [HTTPException] with code 400. *)
Definition form_getitem (req : request) (key : string) : M string :=
  match form req !! key with
  | Some v => mret v
  | None => raise (HTTPException 400)
  end.

(** [request.form.get(key)] *)
Definition form_get (req : request) (key : string) : option string :=
  form req !! key.

(** ** Responses *)

Inductive value :=
| VMovies (ms : list Movie.t)
| VMovie (m : Movie.t)
| VUser (u : option User.t).

Inductive response :=
| Redirect (location : string)
| Page (status : nat) (template : string) (context : list (string * value))
    (messages : list (string * string))
| Text (body : string)
| ErrorPage (status : nat).

Definition is_redirect (r : response) : bool :=
  match r with Redirect _ => true | _ => false end.

Definition redirect (location : string) : M response :=
  mret (Redirect location).

(** ** Python built-ins used by the views *)

(** [str.replace(old, new)] for a one-character [old]. *)
Fixpoint replace (old : ascii) (new : string) (s : string) : string :=
  match s with
  | EmptyString => EmptyString
  | String c s' =>
      if Ascii.eqb c old then new +:+ replace old new s'
      else String c (replace old new s')
  end.

(** [str(n)] for a non-negative integer. *)
Definition str_of_nat (n : nat) : string :=
  NilEmpty.string_of_uint (Nat.to_uint n).

(** Truth value of an optional string: [None] and [''] are false. *)
Definition truthy (s : option string) : bool :=
  match s with
  | Some s => negb (String.eqb s "")
  | None => false
  end.

(** [a == b] for a string [a] and a [b] that is a string or [None]. *)
Definition str_eq (a : string) (b : option string) : bool :=
  match b with
  | Some b => String.eqb a b
  | None => false
  end.

(** ** markupsafe *)

Definition quot : ascii := "034"%char.

(** [markupsafe.escape] on a [str], as its Python implementation has it:
    five [replace] calls in a row, for the ampersand first, then the
    greater-than sign, the less-than sign, the single quote (to [&#39;])
    and the double quote (to [&#34;]). *)
Definition escape (s : string) : string :=
  replace quot "&#34;"
    (replace "'" "&#39;"
      (replace "<" "&lt;"
        (replace ">" "&gt;"
          (replace "&" "&amp;" s)))).

(** ** Flask: flash, url_for, render_template *)

(** [flash(message)]: the category defaults to ['message']. *)
Definition flash (message : string) : M unit :=
  modify (set_flashes (λ q, q ++ [("message", message)])).

Inductive segment :=
| Lit (s : string)
| Conv (arg : string).

(** The URL map that the [@app.route] decorators build, by endpoint (the
    view function's name), with Flask's own [static] route. *)
Definition url_map : list (string * list segment) :=
  [ ("static", [Lit "static"; Conv "filename"]);
    ("login", [Lit "login"]);
    ("logout", [Lit "logout"]);
    ("settings", [Lit "settings"]);
    ("index", []);
    ("edit", [Lit "movie"; Lit "edit"; Conv "movie_id"]);
    ("delete", [Lit "movie"; Lit "delete"; Conv "movie_id"]);
    ("user_page", [Lit "user"; Conv "name"]);
    ("test_url_for", [Lit "test"]) ].

Definition assoc {A : Type} (k : string) (l : list (string * A)) : option A :=
  snd <$> List.find (λ p, String.eqb (fst p) k) l.

Fixpoint build_path (segs : list segment) (values : list (string * string))
    : option string :=
  match segs with
  | [] => Some ""
  | Lit s :: segs' => (λ rest, "/" +:+ s +:+ rest) <$> build_path segs' values
  | Conv a :: segs' =>
      match assoc a values with
      | Some v => (λ rest, "/" +:+ v +:+ rest) <$> build_path segs' values
      | None => None
      end
  end.

(** [url_for(endpoint, **values)]: an endpoint outside the URL map, or a
    missing value for a converter, raises [BuildError]. *)
Definition url_for (endpoint : string) (values : list (string * string))
    : M string :=
  match assoc endpoint url_map with
  | Some segs =>
      match build_path segs values with
      | Some "" => mret "/"
      | Some p => mret p
      | None => raise (BuildError endpoint)
      end
  | None => raise (BuildError endpoint)
  end.

(** ** Flask-SQLAlchemy queries *)

(** [User.query.first()] *)
Definition User_query_first : M (option User.t) :=
  w ← get_world; mret (head (users w)).

(** [User.query.get(user_id)] *)
Definition User_query_get (user_id : nat) : M (option User.t) :=
  w ← get_world;
  mret (List.find (λ u, Nat.eqb (User.id u) user_id) (users w)).

(** [Movie.query.all()] *)
Definition Movie_query_all : M (list Movie.t) :=
  w ← get_world; mret (movies w).

(** The largest integer SQLite stores: integers are 64-bit and signed. *)
Definition sqlite_max_integer : N := (2 ^ 63 - 1)%N.

(** [n] is an integer that can be bound as a parameter of a query. *)
Definition sqlite_integer (n : nat) : bool :=
  (N.of_nat n <=? sqlite_max_integer)%N.
Arguments sqlite_integer : simpl never.

(** [Movie.query.get(movie_id)]: SELECT ... WHERE id = ?, with [movie_id]
    bound as the parameter. The id comes from the URL, where the [int]
    converter accepts any run of digits; binding an integer beyond SQLite's
    range raises [OverflowError] before the table is read. *)
Definition Movie_query_get (movie_id : nat) : M (option Movie.t) :=
  if sqlite_integer movie_id then
    w ← get_world;
    mret (List.find (λ m, Nat.eqb (Movie.id m) movie_id) (movies w))
  else raise OverflowError.

(** [Movie.query.get_or_404(movie_id)] *)
Definition Movie_query_get_or_404 (movie_id : nat) : M Movie.t :=
  m ← Movie_query_get movie_id;
  match m with
  | Some m => mret m
  | None => raise (HTTPException 404)
  end.

(** The id SQLite gives a new row of a table with an INTEGER PRIMARY KEY:
    one more than the largest id in the table. *)
Definition next_id (ids : list nat) : nat := S (max_list ids).

(** [movie = Movie(title=..., year=...); db.session.add(movie);
    db.session.commit()]; returns the row as stored. *)
Definition add_movie (title year : string) : M Movie.t :=
  w ← get_world;
  let movie := Movie.mk (next_id (Movie.id <$> movies w)) title year in
  modify (set_movies (λ ms, ms ++ [movie]));;
  mret movie.

(** [movie.title = title; movie.year = year; db.session.commit()]:
    UPDATE movie SET ... WHERE id = movie.id. *)
Definition update_movie (movie : Movie.t) (title year : string) : M unit :=
  modify (set_movies (fmap (λ m,
    if Nat.eqb (Movie.id m) (Movie.id movie)
    then Movie.mk (Movie.id m) title year else m))).

(** [db.session.delete(movie); db.session.commit()]:
    DELETE FROM movie WHERE id = movie.id. *)
Definition delete_movie (movie : Movie.t) : M unit :=
  modify (set_movies
    (List.filter (λ m, negb (Nat.eqb (Movie.id m) (Movie.id movie))))).

(** [user.name = name; db.session.commit()] *)
Definition update_user_name (user : User.t) (name : string) : M unit :=
  modify (set_users (fmap (λ u,
    if Nat.eqb (User.id u) (User.id user)
    then User.mk (User.id u) name (User.username u) (User.password_hash u)
    else u))).

(** [inject_user], the context processor *)
Definition inject_user : M (list (string * value)) :=
  user ← User_query_first; mret [("user", VUser user)].

(** [get_flashed_messages()]: the queued messages, which are taken out of
    the session. *)
Definition get_flashed_messages : M (list (string * string)) :=
  λ w, (Return (flashes w), set_flashes (λ _, []) w).

(** Modelled from the spec: the templates ([index.html], [login.html],
    [settings.html], [edit.html], [404.html]), which are not part of the
    source. The specification has every rendered view consume the flash
    queue, once, and the comment in [index] says the templates fetch the
    messages with [get_flashed_messages()]. A rendered page is kept as the
    data it is made from: its status, the template's name, the context
    with what the context processor injects, and the flashed messages it
    shows. *)
Definition render (status : nat) (template : string)
    (context : list (string * value)) : M response :=
  messages ← get_flashed_messages;
  mret (Page status template context messages).

(** [render_template(name, **context)]: the template sees the context and
    what the context processor injects. *)
Definition render_template (template : string)
    (context : list (string * value)) : M response :=
  injected ← inject_user;
  render 200 template (context ++ injected).

(** ** Flask-Login *)

(** [load_user], the user loader callback *)
Definition load_user (user_id : nat) : M (option User.t) :=
  User_query_get user_id.

(** [current_user]: the user the callback loads for the session's
    ['_user_id'], or [None] for the anonymous user. *)
Definition current_user : M (option User.t) :=
  w ← get_world;
  match session_user_id w with
  | Some user_id => load_user user_id
  | None => mret None
  end.

(** [current_user.is_authenticated] *)
Definition is_authenticated (user : option User.t) : bool :=
  match user with Some _ => true | None => false end.

(** [login_user(user)]: [UserMixin.is_active] is true, so the user's id
    is stored in the session. *)
Definition login_user (user : User.t) : M unit :=
  modify (set_session_user_id (Some (User.id user))).

(** [logout_user()] *)
Definition logout_user : M unit :=
  modify (set_session_user_id None).

Definition login_view : string := "login".
Definition login_message : string := "Invalid login.".

(** [LoginManager.unauthorized()] with [login_view] set: flash
    [login_message] and redirect to the login URL, with the request's path
    as the [next] parameter. The parameter is URL-quoted; in the paths of
    the protected views only the slashes need quoting. *)
Definition unauthorized (req : request) : M response :=
  flash login_message;;
  login_url ← url_for login_view [];
  redirect (login_url +:+ "?next=" +:+ replace "/" "%2F" (req_path req)).

Definition view : Type := request → M response.

(** [@login_required] *)
Definition login_required (v : view) : view := λ req,
  user ← current_user;
  if is_authenticated user then v req else unauthorized req.

(** [@app.route(rule, methods=[...])]: a request with another method is
    answered 405 Method Not Allowed. *)
Definition route (methods : list method) (v : view) : view := λ req,
  if existsb (method_eqb (req_method req)) methods then v req
  else raise (HTTPException 405).

(** ** The application *)

Section App.

(** werkzeug's verdict on a stored hash string and a plaintext: the hash
    function itself is outside the application. *)
Variable hash_matches : string → string → bool.

(** [werkzeug.security.check_password_hash(pwhash, password)]. On a [str]
    it answers with the verdict above. It starts by calling a [str] method
    on [pwhash], which on [None] raises [AttributeError]. *)
Definition check_password_hash (pwhash : option string) (password : string)
    : result bool :=
  match pwhash with
  | Some h => Return (hash_matches h password)
  | None => Raise AttributeError
  end.

(** [User.validate_password] *)
Definition validate_password (self : User.t) (password : string) : result bool :=
  check_password_hash (User.password_hash self) password.

(** [user.username] where [user] may be [None] *)
Definition getattr_username (user : option User.t) : result (option string) :=
  match user with
  | Some u => Return (User.username u)
  | None => Raise AttributeError
  end.

(** [user.validate_password(password)] where [user] may be [None] *)
Definition call_validate_password (user : option User.t) (password : string)
    : result bool :=
  match user with
  | Some u => validate_password u password
  | None => Raise AttributeError
  end.

(** [login], routed at [/login] for GET and POST *)
Definition login : view := route [GET; POST] (λ req,
  if method_eqb (req_method req) POST then
    username ← form_getitem req "username";
    password ← form_getitem req "password";
    if negb (truthy (Some username)) || negb (truthy (Some password)) then
      flash "Invalid input.";;
      url ← url_for "login" []; redirect url
    else
      user ← User_query_first;
      user_username ← lift (getattr_username user);
      (* [username == user.username and user.validate_password(password)]:
         the right operand is evaluated only when the left one is true *)
      ok ← (if str_eq username user_username
            then lift (call_validate_password user password)
            else mret false);
      match ok, user with
      | true, Some u =>
          login_user u;;
          flash "Login success.";;
          url ← url_for "index" []; redirect url
      | _, _ =>
          flash "Invalid username or password.";;
          url ← url_for "login" []; redirect url
      end
  else render_template "login.html" []).

(** [logout], routed at [/logout] *)
Definition logout : view := route [GET] (login_required (λ req,
  logout_user;;
  flash "Goodbye.";;
  url ← url_for "index" []; redirect url)).

(** [settings], routed at [/settings] for GET and POST *)
Definition settings : view := route [GET; POST] (login_required (λ req,
  if method_eqb (req_method req) POST then
    name ← form_getitem req "name";
    if negb (truthy (Some name)) || (20 <? String.length name) then
      flash "Invalid input.";;
      url ← url_for "settings." []; redirect url
    else
      user ← current_user;
      match user with
      | Some u => update_user_name u name
      | None => mret ()
      end;;
      flash "Settings updated.";;
      url ← url_for "index" []; redirect url
  else render_template "settings.html" [])).

(** The test the [index] and [edit] views share:
    [not title or not year or len(year) != 4 or len(title) > 60]. *)
Definition invalid_input (title year : string) : bool :=
  negb (truthy (Some title)) || negb (truthy (Some year))
  || negb (String.length year =? 4) || (60 <? String.length title).

(** [index], routed at [/] for GET and POST. The form is read with
    [request.form.get], so a missing field is [None]; the [not] tests
    reject it before [len] is reached. *)
Definition index : view := route [GET; POST] (λ req,
  if method_eqb (req_method req) POST then
    user ← current_user;
    if negb (is_authenticated user) then
      url ← url_for "index" []; redirect url
    else
      match form_get req "title", form_get req "year" with
      | Some title, Some year =>
          if invalid_input title year then
            flash "Invalid input.";;
            url ← url_for "index" []; redirect url
          else
            add_movie title year;;
            flash "Item created.";;
            url ← url_for "index" []; redirect url
      | _, _ =>
          flash "Invalid input.";;
          url ← url_for "index" []; redirect url
      end
  else
    movies ← Movie_query_all;
    render_template "index.html" [("movies", VMovies movies)]).

(** [edit], routed at [/movie/edit/<int:movie_id>] for GET and POST *)
Definition edit (movie_id : nat) : view := route [GET; POST] (login_required (λ req,
  movie ← Movie_query_get_or_404 movie_id;
  if method_eqb (req_method req) POST then
    title ← form_getitem req "title";
    year ← form_getitem req "year";
    if invalid_input title year then
      flash "Invalid input.";;
      url ← url_for "edit" [("movie_id", str_of_nat movie_id)]; redirect url
    else
      update_movie movie title year;;
      flash "Item updated.";;
      url ← url_for "index" []; redirect url
  else render_template "edit.html" [("movie", VMovie movie)])).

(** [delete], routed at [/movie/delete/<int:movie_id>] for POST *)
Definition delete (movie_id : nat) : view := route [POST] (login_required (λ req,
  movie ← Movie_query_get_or_404 movie_id;
  delete_movie movie;;
  flash "Item deleted.";;
  url ← url_for "index" []; redirect url)).

(** [user_page], routed at [/user/<name>] *)
Definition user_page (name : string) : view := route [GET] (λ req,
  mret (Text ("User Page : " +:+ escape name))).

(** [page_not_found], the handler registered for 404 *)
Definition page_not_found : M response :=
  injected ← inject_user;
  render 404 "404.html" injected.

(** What Flask makes of a view's outcome: a 404 goes to [page_not_found],
    any other [HTTPException] becomes its default page, and any other
    exception is an unhandled error, answered 500 Internal Server Error. *)
Definition full_dispatch_request (v : view) (req : request) : world → response * world :=
  λ w,
  match v req w with
  | (Return r, w') => (r, w')
  | (Raise (HTTPException 404), w') =>
      match page_not_found w' with
      | (Return r, w'') => (r, w'')
      | (Raise _, w'') => (ErrorPage 500, w'')
      end
  | (Raise (HTTPException code), w') => (ErrorPage code, w')
  | (Raise _, w') => (ErrorPage 500, w')
  end.

(** ** The movie repository and the auth manager as the specification
    names them, in terms of the views' primitives *)

(** [list_all()]: what [Movie.query.all()] returns. *)
Definition list_all (w : world) : list Movie.t :=
  match Movie_query_all w with
  | (Return ms, _) => ms
  | (Raise _, _) => []
  end.

(** [get(id)]: what [Movie.query.get(id)] returns, [None] when it finds no
    record or does not return. *)
Definition get (movie_id : nat) (w : world) : option Movie.t :=
  match Movie_query_get movie_id w with
  | (Return m, _) => m
  | (Raise _, _) => None
  end.

(** The user of the session, as [current_user] computes it, and whether
    the session is authenticated. *)
Definition session_user (w : world) : option User.t :=
  match session_user_id w with
  | Some user_id => List.find (λ u, Nat.eqb (User.id u) user_id) (users w)
  | None => None
  end.

Definition authenticated (w : world) : bool :=
  is_authenticated (session_user w).

(** The submitted username and password match a user record: what
    [login] tests, [username == user.username and
    user.validate_password(password)], is true of it. *)
Definition credentials_match (user : User.t) (username password : string) : Prop :=
  User.username user = Some username
  ∧ validate_password user password = Return true.

End App.

(** The response of [unauthorized]: a redirect to the login view that
    carries the request's path. *)
Definition login_redirect (req : request) : response :=
  Redirect ("/login?next=" +:+ replace "/" "%2F" (req_path req)).

(** The fields of a creation attempt that is to be rejected: the title
    missing, empty or longer than 60 characters, or the year missing, empty
    or not 4 characters long. *)
Definition rejected_fields (title year : option string) : Prop :=
  title = None ∨ title = Some ""
  ∨ (∃ t, title = Some t ∧ 60 < String.length t)
  ∨ year = None ∨ year = Some ""
  ∨ (∃ y, year = Some y ∧ String.length y ≠ 4).

(** ** Example data *)

(** A hash scheme to run the examples with: the stored hash of [p] is
    [plain$p]. *)
Definition plain_matches (h p : string) : bool := String.eqb h ("plain$" +:+ p).

Definition admin_user : User.t :=
  User.mk 1 "Admin" (Some "admin") (Some "plain$secret").

(** A user as [forge] creates it: no username, no password hash. *)
Definition forged_user : User.t := User.mk 1 "Grey Li" None None.

Definition arrival : Movie.t := Movie.mk 1 "Arrival" "2016".

Definition post (path : string) (fields : list (string * string)) : request :=
  Request POST path (list_to_map fields).

(** The admin provisioned, an empty catalog, nobody logged in. *)
Definition w_anonymous : world := World [admin_user] [] None [].

(** The same with the admin logged in. *)
Definition w_admin : world := World [admin_user] [] (Some 1) [].

(** The admin logged in and one movie in the catalog. *)
Definition w_catalog : world := World [admin_user] [arrival] (Some 1) [].

(** A second account with the admin's username and password, which the
    schema permits: neither column is unique. *)
Definition second_admin : User.t :=
  User.mk 2 "Deputy" (Some "admin") (Some "plain$secret").

(** The user table empty, the catalog empty, nobody logged in. *)
Definition w_empty : world := World [] [] None [].

(** Two accounts with the same credentials, nobody logged in. *)
Definition w_two_admins : world := World [admin_user; second_admin] [] None [].

(** Only a forged user, who is logged in. *)
Definition w_forged : world := World [forged_user] [] (Some 1) [].

(** ** Escaped markup *)

(** What [escape] makes of one character. *)
Definition escape_char (c : ascii) : string :=
  if Ascii.eqb c "&" then "&amp;"
  else if Ascii.eqb c ">" then "&gt;"
  else if Ascii.eqb c "<" then "&lt;"
  else if Ascii.eqb c "'" then "&#39;"
  else if Ascii.eqb c quot then "&#34;"
  else String c "".

Fixpoint concat_map (f : ascii → string) (s : string) : string :=
  match s with
  | EmptyString => EmptyString
  | String c s' => f c +:+ concat_map f s'
  end.

(** [s] starts with [p]. *)
Fixpoint starts_with (p s : string) : bool :=
  match p, s with
  | EmptyString, _ => true
  | String a p', String b s' => Ascii.eqb a b && starts_with p' s'
  | String _ _, EmptyString => false
  end.

(** What may follow an ampersand in escaped text. *)
Definition entity_tails : list string := ["amp;"; "gt;"; "lt;"; "#39;"; "#34;"].

(** No markup character stands unescaped in [s]: it holds no less-than
    sign, greater-than sign or quote, and each ampersand in it starts one
    of the five entities. *)
Fixpoint well_escaped (s : string) : bool :=
  match s with
  | EmptyString => true
  | String c s' =>
      (if Ascii.eqb c "&" then existsb (λ e, starts_with e s') entity_tails
       else negb (existsb (Ascii.eqb c) ["<"; ">"; "'"; quot]%char))
      && well_escaped s'
  end.

(** [c] occurs in [s]. *)
Fixpoint occurs (c : ascii) (s : string) : bool :=
  match s with
  | EmptyString => false
  | String c' s' => Ascii.eqb c' c || occurs c s'
  end.

(** ** The command line: initdb, forge, admin *)

(** [test_url_for], routed at [/test]. It prints the two URLs on the
    server's standard output, which is not part of the modelled state; the
    two [url_for] calls are kept, since either could raise. *)
Definition test_url_for : view := route [GET] (λ req,
  _ ← url_for "index" [];
  _ ← url_for "user_page" [("name", "jenney")];
  mret (Text "Test page")).

(** [initdb]: with [--drop] both tables are dropped and created again,
    empty. [db.create_all()] leaves existing tables alone. *)
Definition initdb (drop : bool) : M unit :=
  if drop then modify (λ w, set_movies (λ _, []) (set_users (λ _, []) w))
  else mret ().

(** The seed data of [forge]. *)
Definition forge_name : string := "Grey Li".

Definition forge_movies : list (string * string) :=
  [ ("My Neighbor Totoro", "1988");
    ("Dead Poets Society", "1989");
    ("A Perfect World", "1993");
    ("Leon", "1994");
    ("Mahjong", "1996");
    ("Swallowtail Butterfly", "1996");
    ("King of Comedy", "1999");
    ("Devils on the Doorstep", "1999");
    ("WALL-E", "2008");
    ("The Pork of Music", "2012") ].

(** One INSERT into the movie table. *)
Definition insert_movie (ms : list Movie.t) (m : string * string) : list Movie.t :=
  ms ++ [Movie.mk (next_id (Movie.id <$> ms)) m.1 m.2].

(** [forge]: one user with a name only, then the movies of the list in
    order, committed together; each row gets its id as it is inserted. *)
Definition forge : M unit :=
  modify (set_users (λ us,
    us ++ [User.mk (next_id (User.id <$> us)) forge_name None None]));;
  modify (set_movies (λ ms, foldl insert_movie ms forge_movies)).

Section Commands.

(** [werkzeug.security.generate_password_hash], taken with the salt it
    draws for the call at hand. *)
Variable generate_password_hash : string → string.

(** [User.set_password] *)
Definition set_password (self : User.t) (password : string) : User.t :=
  User.mk (User.id self) (User.name self) (User.username self)
    (Some (generate_password_hash password)).

(** [admin]: the first user, if there is one, gets the username and the
    password; otherwise a user named 'Admin' is created with them. The
    commit of the changed row is UPDATE user SET ... WHERE id = user.id. *)
Definition admin (username password : string) : M unit :=
  user ← User_query_first;
  match user with
  | Some user =>
      modify (set_users (fmap (λ u,
        if Nat.eqb (User.id u) (User.id user)
        then set_password
               (User.mk (User.id u) (User.name u) (Some username)
                  (User.password_hash u))
               password
        else u)))
  | None =>
      modify (set_users (λ us,
        us ++ [set_password
                 (User.mk (next_id (User.id <$> us)) "Admin" (Some username) None)
                 password]))
  end.

End Commands.

(** ** The views by endpoint *)

(** The endpoints of the URL map with the arguments their rules bind. *)
Inductive endpoint :=
| ep_login
| ep_logout
| ep_settings
| ep_index
| ep_edit (movie_id : nat)
| ep_delete (movie_id : nat)
| ep_user_page (name : string)
| ep_test_url_for.

(** [app.view_functions]: the view each endpoint is bound to. *)
Definition view_function (hash_matches : string → string → bool)
    (e : endpoint) : view :=
  match e with
  | ep_login => login hash_matches
  | ep_logout => logout
  | ep_settings => settings
  | ep_index => index
  | ep_edit movie_id => edit movie_id
  | ep_delete movie_id => delete movie_id
  | ep_user_page name => user_page name
  | ep_test_url_for => test_url_for
  end.

(** ** What a request may do to the state *)

(** The ids of the movie table, in table order. *)
Definition movie_ids (w : world) : list nat := Movie.id <$> movies w.

(** What stays of a user record whatever the views do: the id and the
    credentials. *)
Definition credentials (u : User.t) : nat * option string * option string :=
  (User.id u, User.username u, User.password_hash u).

(** The first user record holds a username and a password hash, as after
    [admin]. *)
Definition provisioned (w : world) : Prop :=
  ∃ u, head (users w) = Some u
       ∧ is_Some (User.username u) ∧ is_Some (User.password_hash u).

(** The four ways a request changes the movie table. *)
Inductive movies_step (ms : list Movie.t) : list Movie.t → Prop :=
| movies_same : movies_step ms ms
| movies_added title year :
    movies_step ms (ms ++ [Movie.mk (next_id (Movie.id <$> ms)) title year])
| movies_updated movie_id title year :
    movies_step ms
      ((λ m, if Nat.eqb (Movie.id m) movie_id
             then Movie.mk (Movie.id m) title year else m) <$> ms)
| movies_deleted movie_id :
    movies_step ms
      (List.filter (λ m, negb (Nat.eqb (Movie.id m) movie_id)) ms).

(** The two ways a request changes the user table. *)
Inductive users_step (us : list User.t) : list User.t → Prop :=
| users_same : users_step us us
| users_renamed user_id name :
    users_step us
      ((λ u, if Nat.eqb (User.id u) user_id
             then User.mk (User.id u) name (User.username u)
                    (User.password_hash u)
             else u) <$> us).

(** The three ways a request changes the session's user id. *)
Inductive session_step (w : world) : option nat → Prop :=
| session_same : session_step w (session_user_id w)
| session_cleared : session_step w None
| session_first u :
    head (users w) = Some u → session_step w (Some (User.id u)).

(** A request queues at most one flash message, behind those waiting,
    unless it renders a page, which takes all messages out of the queue. *)
Definition flash_step (w : world) (q : list (string * string)) : Prop :=
  (∃ l, q = flashes w ++ l ∧ length l ≤ 1) ∨ q = [].

(** The changes a request may make, table by table. *)
Definition view_step (w w' : world) : Prop :=
  users_step (users w) (users w')
  ∧ movies_step (movies w) (movies w')
  ∧ session_step w (session_user_id w')
  ∧ flash_step w (flashes w').

(** Serving requests one after the other: the state after the last. *)
Definition serve (hash_matches : string → string → bool)
    (requests : list (endpoint * request)) (w : world) : world :=
  foldl (λ w r, (full_dispatch_request (view_function hash_matches r.1) r.2 w).2)
    w requests.

(** [a] when [n] is [k], and [b] otherwise. *)
Fixpoint nat_case {A : Type} (k : nat) (a b : A) (n : nat) : A :=
  match k, n with
  | 0, 0 => a
  | S k', S n' => nat_case k' a b n'
  | _, _ => b
  end.

(** A user record under another display name. *)
Definition renamed (name : string) (u : User.t) : User.t :=
  User.mk (User.id u) name (User.username u) (User.password_hash u).

(** The five characters [escape] replaces. *)
Definition markup_chars : list ascii := ["&"; ">"; "<"; "'"; quot]%char.

(** What the outcome of a request says about the flash queue. A rendered
    page shows the messages that were waiting and leaves the queue empty;
    any other outcome leaves them waiting, behind at most one new
    message. *)
Definition flash_outcome (w : world) (r : response) (w' : world) : Prop :=
  match r with
  | Page _ _ _ messages => messages = flashes w ∧ flashes w' = []
  | _ => ∃ l, flashes w' = flashes w ++ l ∧ length l ≤ 1
  end.

(** The same for a view, which may raise: an [HTTPException] is raised
    before anything is queued. *)
Definition view_flash_outcome (w : world) (r : result response) (w' : world)
    : Prop :=
  match r with
  | Return r => flash_outcome w r w'
  | Raise (HTTPException _) => flashes w' = flashes w
  | Raise _ => ∃ l, flashes w' = flashes w ++ l ∧ length l ≤ 1
  end.

(** * Properties *)

(** ** Running the monad *)

Lemma bind_run {A B : Type} (m : M A) (f : A → M B) (w : world) :
  (m ≫= f) w =
  match m w with
  | (Return a, w') => f a w'
  | (Raise e, w') => (Raise e, w')
  end.
Proof. reflexivity. Qed.

Lemma bind_ret_run {A B : Type} (a : A) (f : A → M B) (w : world) :
  (mret a ≫= f) w = f a w.
Proof. reflexivity. Qed.

Lemma current_user_run (w : world) :
  current_user w = (Return (session_user w), w).
Proof.
  unfold current_user, session_user, load_user, User_query_get.
  rewrite bind_run. cbn. destruct (session_user_id w); reflexivity.
Qed.

Lemma login_required_anonymous (v : view) (req : request) (w : world) :
  authenticated w = false →
  login_required v req w = unauthorized req w.
Proof.
  intros H. unfold login_required. rewrite bind_run, current_user_run.
  unfold authenticated in H. rewrite H. reflexivity.
Qed.

Lemma login_required_authenticated (v : view) (req : request) (w : world) :
  authenticated w = true →
  login_required v req w = v req w.
Proof.
  intros H. unfold login_required. rewrite bind_run, current_user_run.
  unfold authenticated in H. rewrite H. reflexivity.
Qed.

Lemma unauthorized_run (req : request) (w : world) :
  unauthorized req w =
  (Return (Redirect ("/login?next=" +:+ replace "/" "%2F" (req_path req))),
   set_flashes (λ q, q ++ [("message", login_message)]) w).
Proof. reflexivity. Qed.

(** Flashing and authentication do not touch each other. *)
Lemma authenticated_set_flashes f (w : world) :
  authenticated (set_flashes f w) = authenticated w.
Proof. reflexivity. Qed.

Lemma authenticated_set_movies f (w : world) :
  authenticated (set_movies f w) = authenticated w.
Proof. reflexivity. Qed.

Ltac run :=
  repeat first
    [ rewrite bind_run | rewrite current_user_run
    | progress unfold lift | progress cbn ].

(** ** Access control *)

Lemma index_post_anonymous (req : request) (w : world) :
  req_method req = POST →
  authenticated w = false →
  index req w = (Return (Redirect "/"), w).
Proof.
  intros Hm Ha. unfold index, route. rewrite Hm. cbn.
  rewrite bind_run, current_user_run.
  unfold authenticated in Ha. rewrite Ha. reflexivity.
Qed.

Lemma edit_post_anonymous (movie_id : nat) (req : request) (w : world) :
  req_method req = POST →
  authenticated w = false →
  edit movie_id req w =
  (Return (login_redirect req),
   set_flashes (λ q, q ++ [("message", login_message)]) w).
Proof.
  intros Hm Ha. unfold edit, route. rewrite Hm. cbn.
  rewrite login_required_anonymous by done. apply unauthorized_run.
Qed.

Lemma delete_post_anonymous (movie_id : nat) (req : request) (w : world) :
  req_method req = POST →
  authenticated w = false →
  delete movie_id req w =
  (Return (login_redirect req),
   set_flashes (λ q, q ++ [("message", login_message)]) w).
Proof.
  intros Hm Ha. unfold delete, route. rewrite Hm. cbn.
  rewrite login_required_anonymous by done. apply unauthorized_run.
Qed.

(** C3. An unauthenticated POST to the catalog index, to the edit endpoint
    or to the delete endpoint leaves the movie table as it was and is
    answered with a redirect, not an error page. The POST to the catalog
    index is redirected to the index with nothing changed at all (no flash
    either); the other two are redirected to the login view, with the
    login manager's notice flashed. *)
Theorem C3_unauthenticated_post_no_effect
    (movie_id : nat) (req : request) (w : world) :
  req_method req = POST →
  authenticated w = false →
  full_dispatch_request index req w = (Redirect "/", w)
  ∧ full_dispatch_request (edit movie_id) req w =
      (login_redirect req,
       set_flashes (λ q, q ++ [("message", "Invalid login.")]) w)
  ∧ full_dispatch_request (delete movie_id) req w =
      (login_redirect req,
       set_flashes (λ q, q ++ [("message", "Invalid login.")]) w)
  ∧ ∀ v, v ∈ [index; edit movie_id; delete movie_id] →
      is_redirect (full_dispatch_request v req w).1 = true
      ∧ movies (full_dispatch_request v req w).2 = movies w.
Proof.
  intros Hm Ha.
  assert (Hi : full_dispatch_request index req w = (Redirect "/", w)).
  { unfold full_dispatch_request. by rewrite index_post_anonymous. }
  assert (He : full_dispatch_request (edit movie_id) req w =
      (login_redirect req,
       set_flashes (λ q, q ++ [("message", "Invalid login.")]) w)).
  { unfold full_dispatch_request. by rewrite edit_post_anonymous. }
  assert (Hd : full_dispatch_request (delete movie_id) req w =
      (login_redirect req,
       set_flashes (λ q, q ++ [("message", "Invalid login.")]) w)).
  { unfold full_dispatch_request. by rewrite delete_post_anonymous. }
  repeat split; try assumption.
  - set_unfold in H. destruct H as [->|[->|[->|[]]]];
      rewrite ?Hi, ?He, ?Hd; reflexivity.
  - set_unfold in H. destruct H as [->|[->|[->|[]]]];
      rewrite ?Hi, ?He, ?Hd; reflexivity.
Qed.

Lemma C3_unauthenticated_post_no_effect_witness :
  full_dispatch_request index
    (post "/" [("title", "Arrival"); ("year", "2016")]) w_anonymous =
  (Redirect "/", w_anonymous)
  ∧ full_dispatch_request (edit 1)
      (post "/movie/edit/1" [("title", "Arrival"); ("year", "2016")])
      w_anonymous =
    (Redirect "/login?next=%2Fmovie%2Fedit%2F1",
     World [admin_user] [] None [("message", "Invalid login.")]).
Proof.
  split.
  - apply (C3_unauthenticated_post_no_effect 1
             (post "/" [("title", "Arrival"); ("year", "2016")]) w_anonymous);
      reflexivity.
  - apply (C3_unauthenticated_post_no_effect 1
             (post "/movie/edit/1" [("title", "Arrival"); ("year", "2016")])
             w_anonymous); reflexivity.
Defined.

(** ** Creating a movie *)

Lemma invalid_input_rejected (title year : string) :
  rejected_fields (Some title) (Some year) →
  invalid_input title year = true.
Proof.
  unfold rejected_fields, invalid_input, truthy.
  intros [H|[H|[(t & H & Hl)|[H|[H|(y & H & Hl)]]]]];
    try discriminate; simplify_eq.
  - reflexivity.
  - apply Nat.ltb_lt in Hl. rewrite Hl. by rewrite !orb_true_r.
  - by destruct (String.eqb title "").
  - apply Nat.eqb_neq in Hl. rewrite Hl.
    by destruct (String.eqb title ""), (String.eqb y "").
Qed.

Lemma index_post_rejected (req : request) (w : world) :
  req_method req = POST →
  authenticated w = true →
  rejected_fields (form req !! "title") (form req !! "year") →
  index req w =
  (Return (Redirect "/"),
   set_flashes (λ q, q ++ [("message", "Invalid input.")]) w).
Proof.
  intros Hm Ha Hr. unfold index, route. rewrite Hm. cbn.
  rewrite bind_run, current_user_run.
  unfold authenticated in Ha. rewrite Ha. cbn. unfold form_get.
  destruct (form req !! "title") as [title|]; [|reflexivity].
  destruct (form req !! "year") as [year|]; [|reflexivity].
  by rewrite invalid_input_rejected.
Qed.

(** C1, as the code has it. A POST to the catalog index whose title is
    missing, empty or longer than 60 characters, or whose year is missing,
    empty or not 4 characters long, persists no Movie record (the catalog
    and its count are unchanged) and is redirected back to the catalog
    index; when the session is authenticated the flash message
    'Invalid input.' is queued, and when it is not, nothing is queued. *)
Theorem C1_rejected_creation (req : request) (w : world) :
  req_method req = POST →
  rejected_fields (form req !! "title") (form req !! "year") →
  index req w =
    (Return (Redirect "/"),
     if authenticated w
     then set_flashes (λ q, q ++ [("message", "Invalid input.")]) w
     else w)
  ∧ movies (index req w).2 = movies w
  ∧ length (list_all (index req w).2) = length (list_all w).
Proof.
  intros Hm Hr.
  assert (H : index req w =
    (Return (Redirect "/"),
     if authenticated w
     then set_flashes (λ q, q ++ [("message", "Invalid input.")]) w
     else w)).
  { destruct (authenticated w) eqn:Ha.
    - by apply index_post_rejected.
    - by apply index_post_anonymous. }
  rewrite H. split; [reflexivity|]. by destruct (authenticated w).
Qed.

Lemma C1_rejected_creation_witness :
  index (post "/" [("title", ""); ("year", "2016")]) w_admin =
    (Return (Redirect "/"),
     World [admin_user] [] (Some 1) [("message", "Invalid input.")])
  ∧ movies (index (post "/" [("title", ""); ("year", "2016")]) w_admin).2 = [].
Proof.
  destruct (C1_rejected_creation
              (post "/" [("title", ""); ("year", "2016")]) w_admin)
    as (H1 & H2 & _).
  - reflexivity.
  - right; left. reflexivity.
  - split; [exact H1 | exact H2].
Defined.

(** C1 as stated fails for a POST that carries no authenticated session:
    the empty title is not reported, the flash queue stays empty. *)
Lemma C1_counterexample :
  req_method (post "/" [("title", ""); ("year", "2016")]) = POST
  ∧ form (post "/" [("title", ""); ("year", "2016")]) !! "title" = Some ""
  ∧ ¬ ∃ w', index (post "/" [("title", ""); ("year", "2016")]) w_anonymous
              = (Return (Redirect "/"), w')
            ∧ movies w' = movies w_anonymous
            ∧ ("message", "Invalid input.") ∈ flashes w'.
Proof.
  split; [reflexivity|]. split; [reflexivity|].
  intros (w' & H & _ & Hf).
  rewrite index_post_anonymous in H by reflexivity.
  injection H as <-. cbn in Hf. by apply not_elem_of_nil in Hf.
Qed.

Lemma invalid_input_accepted (title year : string) :
  title ≠ "" → String.length title ≤ 60 →
  year ≠ "" → String.length year = 4 →
  invalid_input title year = false.
Proof.
  intros Ht Hlt Hy Hly. unfold invalid_input, truthy.
  apply String.eqb_neq in Ht, Hy. apply Nat.ltb_ge in Hlt.
  rewrite Ht, Hy, Hly, Hlt. reflexivity.
Qed.

Lemma index_post_accepted (req : request) (w : world) (title year : string) :
  req_method req = POST →
  authenticated w = true →
  form req !! "title" = Some title →
  form req !! "year" = Some year →
  invalid_input title year = false →
  index req w =
  (Return (Redirect "/"),
   set_flashes (λ q, q ++ [("message", "Item created.")])
     (set_movies
        (λ ms, ms ++ [Movie.mk (next_id (Movie.id <$> movies w)) title year])
        w)).
Proof.
  intros Hm Ha Ht Hy Hv. unfold index, route. rewrite Hm. cbn.
  rewrite bind_run, current_user_run.
  unfold authenticated in Ha. rewrite Ha. cbn. unfold form_get.
  rewrite Ht, Hy, Hv. reflexivity.
Qed.

Lemma find_id_above (ms : list Movie.t) (n : nat) :
  (∀ m, m ∈ ms → Movie.id m < n) →
  List.find (λ m, Nat.eqb (Movie.id m) n) ms = None.
Proof.
  induction ms as [|m ms IH]; intros H; [reflexivity|]. cbn.
  assert (Movie.id m < n) as Hlt by (apply H; left).
  apply Nat.lt_neq, Nat.eqb_neq in Hlt. rewrite Hlt.
  apply IH. intros m' Hm'. apply H. by right.
Qed.

Lemma find_id_app (ms : list Movie.t) (m : Movie.t) (n : nat) :
  List.find (λ m, Nat.eqb (Movie.id m) n) ms = None →
  List.find (λ m, Nat.eqb (Movie.id m) n) (ms ++ [m]) =
  if Nat.eqb (Movie.id m) n then Some m else None.
Proof.
  induction ms as [|m' ms IH]; cbn; [reflexivity|].
  destruct (Nat.eqb (Movie.id m') n); [discriminate|]. exact IH.
Qed.

Lemma next_id_above (ms : list Movie.t) (m : Movie.t) :
  m ∈ ms → Movie.id m < next_id (Movie.id <$> ms).
Proof.
  intros Hm. unfold next_id. apply Nat.lt_succ_r, max_list_elem_of_le.
  by apply list_elem_of_fmap_2.
Qed.

(** [list_all] and [get] in terms of the table. *)
Lemma list_all_movies (w : world) : list_all w = movies w.
Proof. reflexivity. Qed.

Lemma list_all_set f g (w : world) :
  list_all (set_flashes g (set_movies f w)) = f (movies w).
Proof. reflexivity. Qed.

Lemma get_in_range (movie_id : nat) (w : world) :
  sqlite_integer movie_id = true →
  get movie_id w = List.find (λ m, Nat.eqb (Movie.id m) movie_id) (movies w).
Proof. intros H. unfold get, Movie_query_get. by rewrite H. Qed.

Lemma get_some_find (movie_id : nat) (w : world) (movie : Movie.t) :
  get movie_id w = Some movie →
  sqlite_integer movie_id = true
  ∧ List.find (λ m, Nat.eqb (Movie.id m) movie_id) (movies w) = Some movie.
Proof.
  unfold get, Movie_query_get.
  destruct (sqlite_integer movie_id); [|discriminate]. by split.
Qed.

Lemma get_find_none (movie_id : nat) (w : world) :
  List.find (λ m, Nat.eqb (Movie.id m) movie_id) (movies w) = None →
  get movie_id w = None.
Proof.
  intros H. unfold get, Movie_query_get.
  destruct (sqlite_integer movie_id); [exact H | reflexivity].
Qed.

Lemma Movie_query_get_or_404_found (movie_id : nat) (w : world) (movie : Movie.t) :
  get movie_id w = Some movie →
  Movie_query_get_or_404 movie_id w = (Return movie, w).
Proof.
  intros [Hr Hf]%get_some_find.
  unfold Movie_query_get_or_404, Movie_query_get. rewrite Hr, !bind_run. cbn.
  by rewrite Hf.
Qed.

Lemma Movie_query_get_or_404_missing (movie_id : nat) (w : world) :
  sqlite_integer movie_id = true →
  get movie_id w = None →
  Movie_query_get_or_404 movie_id w = (Raise (HTTPException 404), w).
Proof.
  intros Hr Hg. rewrite get_in_range in Hg by done.
  unfold Movie_query_get_or_404, Movie_query_get. rewrite Hr, !bind_run. cbn.
  by rewrite Hg.
Qed.

Lemma index_get_run (req : request) (w : world) :
  req_method req = GET →
  index req w =
  (Return (Page 200 "index.html"
             [("movies", VMovies (list_all w)); ("user", VUser (head (users w)))]
             (flashes w)),
   set_flashes (λ _, []) w).
Proof. intros Hm. unfold index, route. by rewrite Hm. Qed.

Lemma edit_get_run (movie_id : nat) (req : request) (w : world) (movie : Movie.t) :
  req_method req = GET →
  authenticated w = true →
  get movie_id w = Some movie →
  edit movie_id req w =
  (Return (Page 200 "edit.html"
             [("movie", VMovie movie); ("user", VUser (head (users w)))]
             (flashes w)),
   set_flashes (λ _, []) w).
Proof.
  intros Hm Ha Hg. unfold edit, route. rewrite Hm. cbn [existsb method_eqb orb].
  rewrite login_required_authenticated by done.
  rewrite bind_run, (Movie_query_get_or_404_found movie_id w movie) by done.
  by rewrite Hm.
Qed.

(** C7. A valid creation (title non-empty and at most 60 characters, year
    non-empty and 4 characters long, submitted in an authenticated session)
    appends one record with exactly the submitted title and year.
    [list_all], that is [Movie.query.all()], returns it afterwards, and the
    catalog page lists it. [get] on the id it was assigned, an id no record
    had before, returns that same record, as do [Movie.query.get_or_404]
    and the edit form of that id; this second half is stated for an id
    within the integers SQLite stores, as every id it assigns is. *)
Theorem C7_create_get_roundtrip
    (req : request) (w : world) (title year : string) :
  req_method req = POST →
  authenticated w = true →
  form req !! "title" = Some title →
  form req !! "year" = Some year →
  title ≠ "" → String.length title ≤ 60 →
  year ≠ "" → String.length year = 4 →
  ∃ movie w',
    index req w = (Return (Redirect "/"), w')
    ∧ list_all w' = list_all w ++ [movie]
    ∧ movie ∈ list_all w'
    ∧ Movie_query_all w' = (Return (list_all w ++ [movie]), w')
    ∧ (∀ req', req_method req' = GET →
         ∃ user messages,
           (index req' w').1 =
           Return (Page 200 "index.html"
                     [("movies", VMovies (list_all w ++ [movie])); ("user", user)]
                     messages))
    ∧ Movie.title movie = title
    ∧ Movie.year movie = year
    ∧ get (Movie.id movie) w = None
    ∧ (sqlite_integer (Movie.id movie) = true →
       get (Movie.id movie) w' = Some movie
       ∧ Movie_query_get_or_404 (Movie.id movie) w' = (Return movie, w')
       ∧ ∀ req', req_method req' = GET →
           ∃ user messages,
             (edit (Movie.id movie) req' w').1 =
             Return (Page 200 "edit.html"
                       [("movie", VMovie movie); ("user", user)] messages)).
Proof.
  intros Hm Ha Ht Hy Ht0 Htl Hy0 Hyl.
  set (movie := Movie.mk (next_id (Movie.id <$> movies w)) title year).
  set (w' := set_flashes (λ q, q ++ [("message", "Item created.")])
               (set_movies (λ ms, ms ++ [movie]) w)).
  exists movie, w'.
  assert (Hfresh : List.find (λ m, Nat.eqb (Movie.id m) (Movie.id movie))
                     (movies w) = None).
  { apply find_id_above. intros m. apply next_id_above. }
  assert (Hall : list_all w' = list_all w ++ [movie]) by reflexivity.
  split; [|split; [exact Hall|split; [|split; [reflexivity|split]]]].
  - apply index_post_accepted; try eassumption.
    by apply invalid_input_accepted.
  - rewrite Hall. set_solver.
  - intros req' Hm'. rewrite (index_get_run req' w') by done.
    rewrite Hall. by eexists _, _.
  - split; [reflexivity|]. split; [reflexivity|].
    split; [by apply get_find_none|].
    intros Hr.
    assert (Hg : get (Movie.id movie) w' = Some movie).
    { rewrite get_in_range by done. subst w'. cbn [movies set_flashes set_movies].
      rewrite find_id_app by done. by rewrite Nat.eqb_refl. }
    split; [exact Hg|]. split; [by apply Movie_query_get_or_404_found|].
    intros req' Hm'.
    rewrite (edit_get_run (Movie.id movie) req' w' movie) by done.
    by eexists _, _.
Qed.

Lemma C7_create_get_roundtrip_witness :
  ∃ movie w',
    index (post "/" [("title", "Arrival"); ("year", "2016")]) w_admin
      = (Return (Redirect "/"), w')
    ∧ list_all w' = list_all w_admin ++ [movie]
    ∧ Movie.title movie = "Arrival"
    ∧ Movie.year movie = "2016"
    ∧ get (Movie.id movie) w' = Some movie
    ∧ Movie_query_get_or_404 (Movie.id movie) w' = (Return movie, w').
Proof.
  destruct (C7_create_get_roundtrip
              (post "/" [("title", "Arrival"); ("year", "2016")]) w_admin
              "Arrival" "2016")
    as (movie & w' & H1 & H2 & _ & _ & _ & H3 & H4 & _ & H5);
    first [reflexivity | discriminate | cbn; lia | idtac].
  injection H1 as <-. injection H2 as <-.
  exists (Movie.mk 1 "Arrival" "2016"),
    (World [admin_user] [Movie.mk 1 "Arrival" "2016"] (Some 1)
       [("message", "Item created.")]).
  destruct H5 as (H5 & H6 & _); [reflexivity|].
  by repeat split.
Defined.

(** ** Deleting a movie *)

Lemma get_some_id (movie_id : nat) (w : world) (movie : Movie.t) :
  get movie_id w = Some movie → Movie.id movie = movie_id ∧ movie ∈ movies w.
Proof.
  intros [_ H]%get_some_find. apply List.find_some in H as [Hin Heq].
  split; [by apply Nat.eqb_eq | by apply list_elem_of_In].
Qed.

Lemma find_id_filter (ms : list Movie.t) (n : nat) :
  List.find (λ m, Nat.eqb (Movie.id m) n)
    (List.filter (λ m, negb (Nat.eqb (Movie.id m) n)) ms) = None.
Proof.
  induction ms as [|m ms IH]; [reflexivity|]. cbn.
  destruct (Nat.eqb (Movie.id m) n) eqn:E; cbn; [exact IH|].
  by rewrite E.
Qed.

Lemma delete_post_found
    (movie_id : nat) (req : request) (w : world) (movie : Movie.t) :
  req_method req = POST →
  authenticated w = true →
  get movie_id w = Some movie →
  delete movie_id req w =
  (Return (Redirect "/"),
   set_flashes (λ q, q ++ [("message", "Item deleted.")])
     (set_movies
        (List.filter (λ m, negb (Nat.eqb (Movie.id m) movie_id))) w)).
Proof.
  intros Hm Ha Hg. unfold delete, route. rewrite Hm. cbn [existsb method_eqb orb].
  rewrite login_required_authenticated by done.
  rewrite bind_run, (Movie_query_get_or_404_found movie_id w movie Hg).
  destruct (get_some_id _ _ _ Hg) as [<- _]. reflexivity.
Qed.

Lemma delete_post_missing (movie_id : nat) (req : request) (w : world) :
  req_method req = POST →
  authenticated w = true →
  sqlite_integer movie_id = true →
  get movie_id w = None →
  delete movie_id req w = (Raise (HTTPException 404), w).
Proof.
  intros Hm Ha Hr Hg. unfold delete, route. rewrite Hm. cbn [existsb method_eqb orb].
  rewrite login_required_authenticated by done.
  by rewrite bind_run, (Movie_query_get_or_404_missing movie_id w Hr Hg).
Qed.

(** C6. Deleting the same id twice: the first call removes the record (and
    nothing else) and redirects to the catalog; the second call fails with
    the not-found condition and changes nothing. Flask answers it with the
    404 page, which shows the flash messages that were waiting; the
    catalog, the user table and the session are then exactly as the first
    call left them. *)
Theorem C6_delete_twice
    (movie_id : nat) (req : request) (w : world) (movie : Movie.t) :
  req_method req = POST →
  authenticated w = true →
  get movie_id w = Some movie →
  ∃ w1,
    delete movie_id req w = (Return (Redirect "/"), w1)
    ∧ list_all w1 =
        (List.filter (λ m, negb (Nat.eqb (Movie.id m) movie_id)) (list_all w))
    ∧ (movie ∉ list_all w1)
    ∧ get movie_id w1 = None
    ∧ delete movie_id req w1 = (Raise (HTTPException 404), w1)
    ∧ full_dispatch_request (delete movie_id) req w1 =
        (Page 404 "404.html" [("user", VUser (head (users w1)))] (flashes w1),
         set_flashes (λ _, []) w1)
    ∧ list_all (full_dispatch_request (delete movie_id) req w1).2 = list_all w1
    ∧ users (full_dispatch_request (delete movie_id) req w1).2 = users w1
    ∧ session_user_id (full_dispatch_request (delete movie_id) req w1).2
      = session_user_id w1.
Proof.
  intros Hm Ha Hg. eexists. split; [by eapply delete_post_found|].
  set (w1 := set_flashes _ _).
  destruct (get_some_find _ _ _ Hg) as [Hr _].
  assert (Hg1 : get movie_id w1 = None).
  { apply get_find_none, find_id_filter. }
  assert (Hd1 : delete movie_id req w1 = (Raise (HTTPException 404), w1)).
  { by apply delete_post_missing. }
  assert (Hf : full_dispatch_request (delete movie_id) req w1 =
        (Page 404 "404.html" [("user", VUser (head (users w1)))] (flashes w1),
         set_flashes (λ _, []) w1)).
  { unfold full_dispatch_request. by rewrite Hd1. }
  rewrite Hf. repeat split; try done.
  intros Hin. rewrite list_all_movies in Hin. cbn in Hin.
  apply list_elem_of_In, List.filter_In in Hin as [_ Hne].
  destruct (get_some_id _ _ _ Hg) as [Hid _].
  rewrite Hid, Nat.eqb_refl in Hne. discriminate.
Qed.

Lemma C6_delete_twice_witness :
  ∃ w1,
    delete 1 (post "/movie/delete/1" []) w_catalog = (Return (Redirect "/"), w1)
    ∧ list_all w1 =
        (List.filter (λ m, negb (Nat.eqb (Movie.id m) 1)) (list_all w_catalog))
    ∧ (arrival ∉ list_all w1)
    ∧ get 1 w1 = None
    ∧ delete 1 (post "/movie/delete/1" []) w1 = (Raise (HTTPException 404), w1)
    ∧ full_dispatch_request (delete 1) (post "/movie/delete/1" []) w1 =
        (Page 404 "404.html" [("user", VUser (head (users w1)))] (flashes w1),
         set_flashes (λ _, []) w1)
    ∧ list_all (full_dispatch_request (delete 1) (post "/movie/delete/1" []) w1).2
      = list_all w1
    ∧ users (full_dispatch_request (delete 1) (post "/movie/delete/1" []) w1).2
      = users w1
    ∧ session_user_id
        (full_dispatch_request (delete 1) (post "/movie/delete/1" []) w1).2
      = session_user_id w1.
Proof.
  apply (C6_delete_twice 1 (post "/movie/delete/1" []) w_catalog arrival);
    reflexivity.
Defined.

(** ** Logging in *)

Section Login.

Context (hash_matches : string → string → bool).

Lemma str_eq_true (a : string) (b : option string) :
  str_eq a b = true ↔ b = Some a.
Proof.
  destruct b as [b|]; cbn; [|by split].
  rewrite String.eqb_eq. split; congruence.
Qed.

Lemma str_eq_false (a : string) (b : option string) :
  str_eq a b = false ↔ b ≠ Some a.
Proof.
  rewrite <- str_eq_true. destruct (str_eq a b); split; congruence.
Qed.

(** The login POST with both fields filled in, as one case analysis. *)
Lemma login_post_run (req : request) (w : world) (username password : string) :
  req_method req = POST →
  form req !! "username" = Some username →
  form req !! "password" = Some password →
  username ≠ "" → password ≠ "" →
  login hash_matches req w =
  match head (users w) with
  | None => (Raise AttributeError, w)
  | Some u =>
      if str_eq username (User.username u) then
        match validate_password hash_matches u password with
        | Return true =>
            (Return (Redirect "/"),
             set_flashes (λ q, q ++ [("message", "Login success.")])
               (set_session_user_id (Some (User.id u)) w))
        | Return false =>
            (Return (Redirect "/login"),
             set_flashes
               (λ q, q ++ [("message", "Invalid username or password.")]) w)
        | Raise e => (Raise e, w)
        end
      else
        (Return (Redirect "/login"),
         set_flashes
           (λ q, q ++ [("message", "Invalid username or password.")]) w)
  end.
Proof.
  intros Hm Hu Hp Hu0 Hp0. unfold login, route. rewrite Hm. cbn.
  unfold form_getitem. rewrite Hu, Hp, !bind_run. cbn.
  apply String.eqb_neq in Hu0, Hp0. rewrite Hu0. run. rewrite Hp0.
  unfold User_query_first. run.
  destruct (head (users w)) as [u|]; [|reflexivity]. run.
  destruct (str_eq username (User.username u)); [|reflexivity]. run.
  destruct (validate_password hash_matches u password) as [[|]|e]; reflexivity.
Qed.

Lemma session_user_head (w : world) (u : User.t) :
  head (users w) = Some u →
  session_user (set_session_user_id (Some (User.id u)) w) = Some u.
Proof.
  intros H. unfold session_user. cbn.
  destruct (users w) as [|u' us]; simplify_eq/=. by rewrite Nat.eqb_refl.
Qed.

End Login.

(** C2. A login POST with username and password filled in, against a store
    whose first user is the admin: if the username equals the admin's and
    the password validates against the stored hash, the session becomes
    authenticated as the admin and the response redirects to the catalog
    view; if the username differs, or the password does not validate, or
    both, the session is left as it was (anonymous stays anonymous) and the
    one message 'Invalid username or password.' is flashed with a redirect
    to the login view, the same outcome whichever field was wrong. *)
Theorem C2_login_outcomes
    (hash_matches : string → string → bool)
    (req : request) (w : world) (admin : User.t) (username password : string) :
  req_method req = POST →
  form req !! "username" = Some username →
  form req !! "password" = Some password →
  username ≠ "" → password ≠ "" →
  head (users w) = Some admin →
  (User.username admin = Some username →
   validate_password hash_matches admin password = Return true →
   login hash_matches req w =
     (Return (Redirect "/"),
      set_flashes (λ q, q ++ [("message", "Login success.")])
        (set_session_user_id (Some (User.id admin)) w))
   ∧ session_user (login hash_matches req w).2 = Some admin
   ∧ authenticated (login hash_matches req w).2 = true)
  ∧ (User.username admin ≠ Some username
     ∨ validate_password hash_matches admin password = Return false →
   login hash_matches req w =
     (Return (Redirect "/login"),
      set_flashes
        (λ q, q ++ [("message", "Invalid username or password.")]) w)
   ∧ session_user_id (login hash_matches req w).2 = session_user_id w
   ∧ authenticated (login hash_matches req w).2 = authenticated w).
Proof.
  intros Hm Hu Hp Hu0 Hp0 Hhead.
  pose proof (login_post_run hash_matches req w username password
                Hm Hu Hp Hu0 Hp0) as Hrun.
  rewrite Hhead in Hrun. split.
  - intros Hname Hpw.
    apply str_eq_true in Hname. rewrite Hname, Hpw in Hrun.
    rewrite Hrun. split; [reflexivity|].
    pose proof (session_user_head w admin Hhead) as Hs.
    unfold authenticated. unfold session_user in *. cbn in *.
    by rewrite Hs.
  - intros Hwrong.
    assert (login hash_matches req w =
      (Return (Redirect "/login"),
       set_flashes
         (λ q, q ++ [("message", "Invalid username or password.")]) w)) as H.
    { destruct (str_eq username (User.username admin)) eqn:E.
      - destruct Hwrong as [Hne|Hpw].
        + apply str_eq_true in E. contradiction.
        + by rewrite Hpw in Hrun.
      - exact Hrun. }
    rewrite H. by repeat split.
Qed.

Lemma C2_login_outcomes_witness :
  login plain_matches
    (post "/login" [("username", "admin"); ("password", "secret")])
    w_anonymous =
  (Return (Redirect "/"),
   World [admin_user] [] (Some 1) [("message", "Login success.")])
  ∧ login plain_matches
      (post "/login" [("username", "admin"); ("password", "wrong")])
      w_anonymous =
    (Return (Redirect "/login"),
     World [admin_user] [] None [("message", "Invalid username or password.")])
  ∧ login plain_matches
      (post "/login" [("username", "root"); ("password", "secret")])
      w_anonymous =
    (Return (Redirect "/login"),
     World [admin_user] [] None [("message", "Invalid username or password.")]).
Proof.
  split; [|split].
  - apply (C2_login_outcomes plain_matches
             (post "/login" [("username", "admin"); ("password", "secret")])
             w_anonymous admin_user "admin" "secret");
      first [reflexivity | discriminate].
  - apply (C2_login_outcomes plain_matches
             (post "/login" [("username", "admin"); ("password", "wrong")])
             w_anonymous admin_user "admin" "wrong");
      first [reflexivity | discriminate | by right].
  - apply (C2_login_outcomes plain_matches
             (post "/login" [("username", "root"); ("password", "secret")])
             w_anonymous admin_user "root" "secret");
      first [reflexivity | discriminate | by left].
Defined.

(** ** Which user record a login is checked against *)

Lemma login_post_session (hash_matches : string → string → bool)
    (req : request) (w : world) (first : User.t) (username password : string) :
  req_method req = POST →
  form req !! "username" = Some username →
  form req !! "password" = Some password →
  username ≠ "" → password ≠ "" →
  head (users w) = Some first →
  session_user_id (login hash_matches req w).2 =
  if str_eq username (User.username first) then
    match validate_password hash_matches first password with
    | Return true => Some (User.id first)
    | _ => session_user_id w
    end
  else session_user_id w.
Proof.
  intros Hm Hu Hp Hu0 Hp0 Hhead.
  rewrite (login_post_run hash_matches req w username password) by done.
  rewrite Hhead. destruct (str_eq username (User.username first)); [|done].
  by destruct (validate_password hash_matches first password) as [[|]|e].
Qed.

(** C8, as the code has it. With one or more User records in the store,
    login checks the submitted credentials against the first record only.
    The outcome is the same whatever records follow the first one. When the
    credentials do not match the first record, the session is left as it
    was, also when they match some other record; so a login whose
    credentials match a record other than the first, and not the first
    itself, never makes the session authenticated. When the session does
    change, it is to the first record's identity. *)
Theorem C8_login_checks_first_record
    (hash_matches : string → string → bool) (req : request)
    (first : User.t) (rest : list User.t) (ms : list Movie.t)
    (sid : option nat) (fl : list (string * string))
    (username password : string) :
  req_method req = POST →
  form req !! "username" = Some username →
  form req !! "password" = Some password →
  username ≠ "" → password ≠ "" →
  (∀ rest',
     (login hash_matches req (World (first :: rest') ms sid fl)).1 =
     (login hash_matches req (World (first :: rest) ms sid fl)).1
     ∧ session_user_id
         (login hash_matches req (World (first :: rest') ms sid fl)).2 =
       session_user_id
         (login hash_matches req (World (first :: rest) ms sid fl)).2)
  ∧ (¬ credentials_match hash_matches first username password →
     session_user_id
       (login hash_matches req (World (first :: rest) ms sid fl)).2 = sid
     ∧ authenticated
         (login hash_matches req (World (first :: rest) ms sid fl)).2 =
       authenticated (World (first :: rest) ms sid fl))
  ∧ (session_user_id
       (login hash_matches req (World (first :: rest) ms sid fl)).2 ≠ sid →
     credentials_match hash_matches first username password
     ∧ session_user_id
         (login hash_matches req (World (first :: rest) ms sid fl)).2 =
       Some (User.id first)).
Proof.
  intros Hm Hu Hp Hu0 Hp0.
  assert (Hrun : ∀ rest', login hash_matches req (World (first :: rest') ms sid fl) = _)
    by (intros rest'; by apply (login_post_run hash_matches req _ username password)).
  assert (Hsid : ∀ rest',
    session_user_id (login hash_matches req (World (first :: rest') ms sid fl)).2 = _)
    by (intros rest';
        by apply (login_post_session hash_matches req _ first username password)).
  cbn in Hrun, Hsid. unfold credentials_match.
  split; [|split].
  - intros rest'. rewrite !Hsid, !Hrun. split; [|reflexivity].
    destruct (str_eq username (User.username first)); [|reflexivity].
    by destruct (validate_password hash_matches first password) as [[|]|e].
  - intros Hno. rewrite Hrun.
    destruct (str_eq username (User.username first)) eqn:E; [|done].
    apply str_eq_true in E.
    destruct (validate_password hash_matches first password) as [[|]|e];
      [exfalso; by apply Hno | done | done].
  - rewrite Hsid. intros Hch.
    destruct (str_eq username (User.username first)) eqn:E; [|done].
    apply str_eq_true in E.
    by destruct (validate_password hash_matches first password) as [[|]|e].
Qed.

Lemma C8_login_checks_first_record_witness :
  session_user_id
    (login plain_matches
       (post "/login" [("username", "admin"); ("password", "secret")])
       (World [forged_user; second_admin] [] None [])).2 = None.
Proof.
  apply (C8_login_checks_first_record plain_matches
           (post "/login" [("username", "admin"); ("password", "secret")])
           forged_user [second_admin] [] None [] "admin" "secret");
    first [reflexivity | discriminate | by intros [? _]].
Defined.

(** C8 as stated fails when the credentials that match another record
    match the first record too: the session becomes authenticated. *)
Lemma C8_counterexample :
  second_admin ∈ tail (users w_two_admins)
  ∧ credentials_match plain_matches second_admin "admin" "secret"
  ∧ authenticated w_two_admins = false
  ∧ authenticated
      (login plain_matches
         (post "/login" [("username", "admin"); ("password", "secret")])
         w_two_admins).2 = true.
Proof.
  split; [cbn; set_solver|]. by repeat split.
Qed.

(** C10. With the user table empty, a login POST with username and
    password filled in reaches [user.username] on the [None] that
    [User.query.first()] returned: the view raises [AttributeError], which
    Flask answers with a 500 page, instead of flashing the generic failure
    message; nothing is flashed and the session is untouched. Conversely,
    whenever such a POST returns a response at all, the user table holds at
    least one record. *)
Theorem C10_login_needs_a_user
    (hash_matches : string → string → bool)
    (req : request) (w : world) (username password : string) :
  req_method req = POST →
  form req !! "username" = Some username →
  form req !! "password" = Some password →
  username ≠ "" → password ≠ "" →
  (users w = [] →
   login hash_matches req w = (Raise AttributeError, w)
   ∧ full_dispatch_request (login hash_matches) req w = (ErrorPage 500, w))
  ∧ (∀ r w', login hash_matches req w = (Return r, w') → users w ≠ []).
Proof.
  intros Hm Hu Hp Hu0 Hp0.
  pose proof (login_post_run hash_matches req w username password
                Hm Hu Hp Hu0 Hp0) as Hrun.
  split.
  - intros Hempty. rewrite Hempty in Hrun. cbn in Hrun.
    unfold full_dispatch_request. by rewrite Hrun.
  - intros r w' Hret Hempty. rewrite Hempty in Hrun. cbn in Hrun.
    congruence.
Qed.

Lemma C10_login_needs_a_user_witness :
  login plain_matches
    (post "/login" [("username", "admin"); ("password", "secret")]) w_empty =
  (Raise AttributeError, w_empty)
  ∧ full_dispatch_request (login plain_matches)
      (post "/login" [("username", "admin"); ("password", "secret")]) w_empty =
    (ErrorPage 500, w_empty).
Proof.
  apply (C10_login_needs_a_user plain_matches
           (post "/login" [("username", "admin"); ("password", "secret")])
           w_empty "admin" "secret");
    first [reflexivity | discriminate].
Defined.

(** ** Validating a password *)

(** C5, as the code has it. [validate_password] hands the stored hash to
    [check_password_hash] unguarded. For a user record with no stored hash
    it never succeeds, but it does not return false either: for every
    plaintext the call raises. *)
Theorem C5_validate_password_without_hash
    (hash_matches : string → string → bool) (user : User.t) (plaintext : string) :
  User.password_hash user = None →
  validate_password hash_matches user plaintext = Raise AttributeError
  ∧ validate_password hash_matches user plaintext ≠ Return true.
Proof.
  intros H. unfold validate_password. rewrite H. by split.
Qed.

Lemma C5_validate_password_without_hash_witness :
  validate_password plain_matches forged_user "secret" = Raise AttributeError
  ∧ validate_password plain_matches forged_user "secret" ≠ Return true.
Proof.
  apply (C5_validate_password_without_hash plain_matches forged_user "secret").
  reflexivity.
Defined.

(** C5 as stated fails: the user [forge] creates has no stored hash, and
    validating a password against it does not return false. *)
Lemma C5_counterexample :
  User.password_hash forged_user = None
  ∧ validate_password plain_matches forged_user "secret" ≠ Return false.
Proof. by split. Qed.

(** ** Changing the display name *)

Lemma settings_post_invalid (req : request) (w : world) (name : string) :
  req_method req = POST →
  authenticated w = true →
  form req !! "name" = Some name →
  name = "" ∨ 20 < String.length name →
  settings req w =
  (Raise (BuildError "settings."),
   set_flashes (λ q, q ++ [("message", "Invalid input.")]) w).
Proof.
  intros Hm Ha Hn Hinv. unfold settings, route.
  rewrite Hm. cbn [existsb method_eqb orb].
  rewrite login_required_authenticated by done.
  rewrite Hm. cbn [method_eqb].
  unfold form_getitem. rewrite Hn, bind_ret_run.
  assert (negb (truthy (Some name)) || (20 <? String.length name) = true)
    as ->; [|reflexivity].
  destruct Hinv as [->|Hl]; [reflexivity|].
  apply Nat.ltb_lt in Hl. rewrite Hl. apply orb_true_r.
Qed.

(** C4, on the code. An authenticated settings POST with an empty or
    over-long display name leaves the stored name alone and queues
    'Invalid input.', as claimed, but it is not redirected to the settings
    form: the view asks [url_for] for the endpoint ['settings.'], with a
    stray dot, which no route has, so [BuildError] is raised and the
    request ends in a 500 page. The endpoint ['settings'] would have given
    [/settings]. *)
Theorem C4_settings_invalid_name
    (req : request) (w : world) (name : string) :
  req_method req = POST →
  authenticated w = true →
  form req !! "name" = Some name →
  name = "" ∨ 20 < String.length name →
  users (settings req w).2 = users w
  ∧ flashes (settings req w).2 = flashes w ++ [("message", "Invalid input.")]
  ∧ (settings req w).1 = Raise (BuildError "settings.")
  ∧ (full_dispatch_request settings req w).1 = ErrorPage 500
  ∧ is_redirect (full_dispatch_request settings req w).1 = false
  ∧ url_for "settings" [] w = (Return "/settings", w).
Proof.
  intros Hm Ha Hn Hinv.
  pose proof (settings_post_invalid req w name Hm Ha Hn Hinv) as H.
  unfold full_dispatch_request. rewrite H. by repeat split.
Qed.

Lemma C4_settings_invalid_name_witness :
  users (settings (post "/settings" [("name", "")]) w_admin).2 = [admin_user]
  ∧ flashes (settings (post "/settings" [("name", "")]) w_admin).2 =
      [("message", "Invalid input.")]
  ∧ (settings (post "/settings" [("name", "")]) w_admin).1 =
      Raise (BuildError "settings.")
  ∧ (full_dispatch_request settings (post "/settings" [("name", "")]) w_admin).1
      = ErrorPage 500
  ∧ is_redirect
      (full_dispatch_request settings (post "/settings" [("name", "")]) w_admin).1
      = false
  ∧ url_for "settings" [] w_admin = (Return "/settings", w_admin).
Proof.
  apply (C4_settings_invalid_name (post "/settings" [("name", "")]) w_admin "");
    first [reflexivity | by left].
Defined.

(** ** The user page *)

Lemma app_cons (c : ascii) (s t : string) :
  String c s +:+ t = String c (s +:+ t).
Proof. reflexivity. Qed.

Lemma app_assoc (s t u : string) : (s +:+ t) +:+ u = s +:+ (t +:+ u).
Proof.
  induction s as [|c s IH]; [reflexivity|]. by rewrite !app_cons, IH.
Qed.

Lemma replace_cons (old c : ascii) (new s : string) :
  replace old new (String c s) =
  if Ascii.eqb c old then new +:+ replace old new s
  else String c (replace old new s).
Proof. reflexivity. Qed.

Lemma replace_app (old : ascii) (new a b : string) :
  replace old new (a +:+ b) = replace old new a +:+ replace old new b.
Proof.
  induction a as [|c a IH]; [reflexivity|].
  rewrite app_cons, !replace_cons, IH.
  destruct (Ascii.eqb c old); [by rewrite app_assoc | by rewrite app_cons].
Qed.

(** [escape] works character by character, although it is written as five
    passes over the text: a later pass does not touch what an earlier one
    put in. *)
Lemma escape_cons (c : ascii) (s : string) :
  escape (String c s) = escape_char c +:+ escape s.
Proof.
  unfold escape, escape_char.
  rewrite (replace_cons "&"). destruct (Ascii.eqb c "&") eqn:E1.
  { by rewrite !replace_app. }
  rewrite (replace_cons ">"). destruct (Ascii.eqb c ">") eqn:E2.
  { by rewrite !replace_app. }
  rewrite (replace_cons "<"). destruct (Ascii.eqb c "<") eqn:E3.
  { by rewrite !replace_app. }
  rewrite (replace_cons "'"). destruct (Ascii.eqb c "'") eqn:E4.
  { by rewrite !replace_app. }
  rewrite (replace_cons quot). by destruct (Ascii.eqb c quot) eqn:E5.
Qed.

Lemma escape_concat_map (s : string) : escape s = concat_map escape_char s.
Proof.
  induction s as [|c s IH]; [reflexivity|]. by rewrite escape_cons, IH.
Qed.

Lemma well_escaped_escape (s : string) : well_escaped (escape s) = true.
Proof.
  induction s as [|c s IH]; [reflexivity|].
  rewrite escape_cons. unfold escape_char.
  destruct (Ascii.eqb c "&") eqn:E1;
    [change (well_escaped (escape s) = true); exact IH|].
  destruct (Ascii.eqb c ">") eqn:E2;
    [change (well_escaped (escape s) = true); exact IH|].
  destruct (Ascii.eqb c "<") eqn:E3;
    [change (well_escaped (escape s) = true); exact IH|].
  destruct (Ascii.eqb c "'") eqn:E4;
    [change (well_escaped (escape s) = true); exact IH|].
  destruct (Ascii.eqb c quot) eqn:E5;
    [change (well_escaped (escape s) = true); exact IH|].
  rewrite app_cons. cbn [well_escaped existsb].
  by rewrite E1, E2, E3, E4, E5.
Qed.

Lemma well_escaped_occurs (c : ascii) (s : string) :
  c ∈ ["<"; ">"; "'"; quot]%char →
  well_escaped s = true → occurs c s = false.
Proof.
  intros Hc. induction s as [|c' s IH]; [reflexivity|].
  cbn [well_escaped occurs]. intros [H1 H2]%andb_true_iff.
  rewrite (IH H2), orb_false_r.
  destruct (Ascii.eqb c' c) eqn:E; [|reflexivity].
  apply Ascii.eqb_eq in E as ->. exfalso.
  set_unfold in Hc. destruct Hc as [->|[->|[->|[->|[]]]]]; discriminate.
Qed.

(** C9. For every name taken from the path, [GET /user/<name>] answers with
    the text 'User Page : ' followed by the escaped name, in which each
    character of the name stands as itself or, if it is one of the five
    markup characters, as its entity. So the body holds no less-than sign,
    no greater-than sign and no quote, and every ampersand in it starts an
    entity: no markup character of the name appears unescaped. *)
Theorem C9_user_page_escapes (name : string) (req : request) (w : world) :
  req_method req = GET →
  user_page name req w = (Return (Text ("User Page : " +:+ escape name)), w)
  ∧ escape name = concat_map escape_char name
  ∧ well_escaped ("User Page : " +:+ escape name) = true
  ∧ occurs "<" ("User Page : " +:+ escape name) = false
  ∧ occurs ">" ("User Page : " +:+ escape name) = false.
Proof.
  intros Hm.
  assert (Hw : well_escaped ("User Page : " +:+ escape name) = true)
    by apply well_escaped_escape.
  split; [|split; [|split; [|split]]].
  - unfold user_page, route. by rewrite Hm.
  - apply escape_concat_map.
  - exact Hw.
  - apply well_escaped_occurs; [set_solver | exact Hw].
  - apply well_escaped_occurs; [set_solver | exact Hw].
Qed.

Lemma C9_user_page_escapes_witness :
  user_page "<i>Tom & 'Jerry'"
    (Request GET "/user/<i>Tom & 'Jerry'" ∅) w_anonymous =
  (Return (Text "User Page : &lt;i&gt;Tom &amp; &#39;Jerry&#39;"), w_anonymous).
Proof.
  apply (C9_user_page_escapes "<i>Tom & 'Jerry'"
           (Request GET "/user/<i>Tom & 'Jerry'" ∅) w_anonymous).
  reflexivity.
Defined.

(** * Further properties of the application *)

(** ** What any request may change *)

Ltac crunch :=
  repeat first
    [ progress cbn in *
    | progress unfold mret, M_ret in *
    | rewrite current_user_run
    | match goal with
      | H : context [current_user ?w] |- _ => rewrite (current_user_run w) in H
      end
    | progress unfold mbind, M_bind in *
    | progress simplify_eq/=
    | case_match; simplify_eq/= ].

Ltac unfold_views :=
  unfold view_function, login, logout, settings, index, edit, delete,
    user_page, test_url_for, route, login_required, unauthorized,
    Movie_query_get_or_404, Movie_query_get, Movie_query_all, add_movie,
    update_movie, delete_movie, update_user_name, form_getitem, form_get,
    render_template, render, get_flashed_messages, inject_user,
    User_query_first, login_user, logout_user,
    lift, flash, redirect, raise, modify, get_world.

Lemma flash_step_same (w : world) : flash_step w (flashes w).
Proof. left. exists []. split; [by rewrite (right_id_L [] (++)) | cbn; lia]. Qed.

Lemma flash_step_one (w : world) (m : string * string) :
  flash_step w (flashes w ++ [m]).
Proof. left. exists [m]. split; [done | cbn; lia]. Qed.

Lemma flash_step_drained (w : world) : flash_step w [].
Proof. by right. Qed.

Lemma view_function_step (hash_matches : string → string → bool)
    (e : endpoint) (req : request) (w : world) :
  view_step w (view_function hash_matches e req w).2.
Proof.
  unfold view_step.
  destruct e; unfold_views; crunch;
    repeat split;
    first [ apply users_same | apply users_renamed
          | apply movies_same | apply movies_added | apply movies_updated
          | apply movies_deleted
          | apply session_same | apply session_cleared
          | by apply session_first
          | apply flash_step_same | apply flash_step_one
          | apply flash_step_drained ].
Qed.

Lemma nat_case_elim {A : Type} (P : A → Prop) (a b : A) (k n : nat) :
  P a → P b → P (nat_case k a b n).
Proof.
  intros Ha Hb. revert n.
  induction k as [|k IH]; intros [|n]; cbn; auto.
Qed.

(** What Flask adds to a view: a 404 that the view raises is rendered as
    the 404 page. *)
Lemma full_dispatch_request_run (v : view) (req : request) (w : world) :
  full_dispatch_request v req w =
  match v req w with
  | (Return r, w') => (r, w')
  | (Raise (HTTPException code), w') =>
      nat_case 404
        (Page 404 "404.html" [("user", VUser (head (users w')))] (flashes w'),
         set_flashes (λ _, []) w')
        (ErrorPage code, w') code
  | (Raise _, w') => (ErrorPage 500, w')
  end.
Proof.
  unfold full_dispatch_request.
  destruct (v req w) as [[r|e] w']; [reflexivity|].
  by destruct e as [code| |endpoint|].
Qed.

(** Handling the view's exception touches nothing but the flash queue. *)
Lemma full_dispatch_request_frame (v : view) (req : request) (w : world) :
  users (full_dispatch_request v req w).2 = users (v req w).2
  ∧ movies (full_dispatch_request v req w).2 = movies (v req w).2
  ∧ session_user_id (full_dispatch_request v req w).2
    = session_user_id (v req w).2
  ∧ ((full_dispatch_request v req w).2 = (v req w).2
     ∨ flashes (full_dispatch_request v req w).2 = []).
Proof.
  rewrite full_dispatch_request_run.
  destruct (v req w) as [[r|e] w']; [by repeat split; try left|].
  destruct e as [code| |endpoint|]; try (by repeat split; try left).
  apply (nat_case_elim
           (λ x : response * world,
              users x.2 = users w' ∧ movies x.2 = movies w'
              ∧ session_user_id x.2 = session_user_id w'
              ∧ (x.2 = w' ∨ flashes x.2 = []))).
  - repeat split. by right.
  - repeat split. by left.
Qed.

Lemma dispatch_step (hash_matches : string → string → bool)
    (e : endpoint) (req : request) (w : world) :
  view_step w (full_dispatch_request (view_function hash_matches e) req w).2.
Proof.
  destruct (view_function_step hash_matches e req w) as (Hu & Hm & Hs & Hf).
  destruct (full_dispatch_request_frame (view_function hash_matches e) req w)
    as (Eu & Em & Es & Ef).
  unfold view_step. rewrite Eu, Em, Es. repeat split; try done.
  destruct Ef as [-> | ->]; [done | by right].
Qed.

Lemma serve_cons (hash_matches : string → string → bool)
    (e : endpoint) (req : request) (rs : list (endpoint * request)) (w : world) :
  serve hash_matches ((e, req) :: rs) w =
  serve hash_matches rs
    (full_dispatch_request (view_function hash_matches e) req w).2.
Proof. reflexivity. Qed.

Lemma serve_app (hash_matches : string → string → bool)
    (rs1 rs2 : list (endpoint * request)) (w : world) :
  serve hash_matches (rs1 ++ rs2) w =
  serve hash_matches rs2 (serve hash_matches rs1 w).
Proof. apply foldl_app. Qed.

(** An invariant that one request keeps is kept by any number. *)
Lemma serve_invariant (hash_matches : string → string → bool)
    (P : world → Prop) :
  (∀ e req w,
     P w → P (full_dispatch_request (view_function hash_matches e) req w).2) →
  ∀ requests w, P w → P (serve hash_matches requests w).
Proof.
  intros Hstep requests. induction requests as [|[e req] rs IH]; intros w Hw.
  - exact Hw.
  - rewrite serve_cons. apply IH. by apply Hstep.
Qed.

(** ** The ids of the catalog stay distinct *)

Lemma next_id_fresh (ids : list nat) : next_id ids ∉ ids.
Proof.
  intros Hin. apply max_list_elem_of_le in Hin. unfold next_id in Hin. lia.
Qed.

Lemma movies_step_ids_nodup (ms ms' : list Movie.t) :
  movies_step ms ms' →
  NoDup (Movie.id <$> ms) → NoDup (Movie.id <$> ms').
Proof.
  intros Hstep Hnd. destruct Hstep as [|title year|movie_id title year|movie_id].
  - exact Hnd.
  - rewrite fmap_app. cbn. apply NoDup_app. split; [exact Hnd|]. split.
    + intros x Hx Hx'. apply list_elem_of_singleton in Hx' as ->.
      by apply next_id_fresh in Hx.
    + apply NoDup_singleton.
  - rewrite <- list_fmap_compose.
    erewrite list_fmap_ext; [exact Hnd|].
    intros i m _. cbn. by destruct (Nat.eqb (Movie.id m) movie_id).
  - induction ms as [|m ms IH]; [constructor|].
    cbn in *. apply NoDup_cons in Hnd as [Hm Hnd].
    destruct (Nat.eqb (Movie.id m) movie_id); cbn; [by apply IH|].
    apply NoDup_cons. split; [|by apply IH].
    intros Hin. apply Hm.
    apply list_elem_of_fmap in Hin as (m' & -> & Hin).
    apply list_elem_of_fmap. exists m'. split; [done|].
    apply list_elem_of_In, List.filter_In in Hin as [Hin _].
    by apply list_elem_of_In.
Qed.

(** X1. No request makes two movies share an id: when the ids of the catalog
    are distinct before a request, whatever the endpoint, the method, the
    form and the session, they are distinct after it, and so after any
    number of requests. *)
Theorem movie_ids_stay_distinct
    (hash_matches : string → string → bool)
    (requests : list (endpoint * request)) (w : world) :
  NoDup (movie_ids w) →
  NoDup (movie_ids (serve hash_matches requests w)).
Proof.
  apply (serve_invariant hash_matches (λ w, NoDup (movie_ids w))).
  intros e req w0 Hnd.
  destruct (dispatch_step hash_matches e req w0) as (_ & Hm & _).
  by eapply movies_step_ids_nodup.
Qed.

Lemma movie_ids_stay_distinct_witness :
  NoDup (movie_ids
    (serve plain_matches
       [ (ep_index, post "/" [("title", "Leon"); ("year", "1994")]);
         (ep_delete 1, post "/movie/delete/1" []);
         (ep_index, post "/" [("title", "Mahjong"); ("year", "1996")]) ]
       w_catalog)).
Proof.
  apply (movie_ids_stay_distinct plain_matches).
  cbn. apply NoDup_singleton.
Defined.

(** ** Credentials are out of reach of the web interface *)

Lemma users_step_credentials (us us' : list User.t) :
  users_step us us' → credentials <$> us' = credentials <$> us.
Proof.
  intros [|user_id name]; [reflexivity|].
  rewrite <- list_fmap_compose. apply list_fmap_ext.
  intros i u _. cbn. by destruct (Nat.eqb (User.id u) user_id).
Qed.

(** X2. No sequence of requests adds or removes a user record or changes an
    id, a username or a password hash: the user table keeps its length and,
    row by row, its credentials. Only the display names can change. *)
Theorem credentials_never_change
    (hash_matches : string → string → bool)
    (requests : list (endpoint * request)) (w : world) :
  credentials <$> users (serve hash_matches requests w) = credentials <$> users w
  ∧ length (users (serve hash_matches requests w)) = length (users w).
Proof.
  assert (H : credentials <$> users (serve hash_matches requests w)
              = credentials <$> users w).
  { apply (serve_invariant hash_matches
             (λ w', credentials <$> users w' = credentials <$> users w));
      [|reflexivity].
    intros e req w0 H0.
    destruct (dispatch_step hash_matches e req w0) as (Hu & _).
    by rewrite (users_step_credentials _ _ Hu). }
  split; [exact H|].
  apply (f_equal length) in H. by rewrite !length_fmap in H.
Qed.

Lemma view_function_flash_outcome (hash_matches : string → string → bool)
    (e : endpoint) (req : request) (w : world) (r : result response) (w' : world) :
  view_function hash_matches e req w = (r, w') →
  view_flash_outcome w r w'.
Proof.
  unfold view_flash_outcome, flash_outcome.
  destruct e; unfold_views;
    unfold call_validate_password, getattr_username, validate_password,
      check_password_hash;
    intros H; crunch;
    first [ done
          | exists []; split; [by rewrite (right_id_L [] (++)) | cbn; lia]
          | eexists [_]; split; [done | cbn; lia] ].
Qed.

(** X3. A flash message waits until a page is rendered. A request that is
    answered with a rendered page, the 404 page included, shows exactly the
    messages that were waiting and leaves the queue empty; a request with
    any other answer (a redirect, a plain text, an error page) leaves the
    waiting messages in place and in order, and adds at most one behind
    them. *)
Theorem flashes_wait_for_a_page
    (hash_matches : string → string → bool)
    (e : endpoint) (req : request) (w : world) :
  match (full_dispatch_request (view_function hash_matches e) req w).1 with
  | Page _ _ _ messages =>
      messages = flashes w
      ∧ flashes (full_dispatch_request (view_function hash_matches e) req w).2
        = []
  | _ =>
      ∃ l, flashes (full_dispatch_request (view_function hash_matches e) req w).2
           = flashes w ++ l
           ∧ length l ≤ 1
  end.
Proof.
  rewrite full_dispatch_request_run.
  destruct (view_function hash_matches e req w) as [[r|ex] w'] eqn:E;
    apply view_function_flash_outcome in E; [exact E|].
  rename E into H. cbn in H.
  destruct ex as [code| |endpoint|]; try exact H.
  apply (nat_case_elim
           (λ x : response * world,
              match x.1 with
              | Page _ _ _ messages => messages = flashes w ∧ flashes x.2 = []
              | _ => ∃ l, flashes x.2 = flashes w ++ l ∧ length l ≤ 1
              end)); cbn.
  - by split.
  - exists []. split; [by rewrite (right_id_L [] (++)) | cbn; lia].
Qed.

(** ** Once provisioned, login cannot fail with an error *)

Lemma users_step_provisioned (w w' : world) :
  users_step (users w) (users w') → provisioned w → provisioned w'.
Proof.
  intros Hstep (u & Hhead & Hname & Hhash). unfold provisioned.
  remember (users w') as us' eqn:E'. remember (users w) as us eqn:E.
  destruct Hstep as [|user_id name]; [by exists u|].
  destruct us as [|u0 us]; simplify_eq/=.
  destruct (Nat.eqb (User.id u) user_id); eexists; by split.
Qed.

Lemma serve_provisioned
    (hash_matches : string → string → bool)
    (requests : list (endpoint * request)) (w : world) :
  provisioned w → provisioned (serve hash_matches requests w).
Proof.
  apply (serve_invariant hash_matches provisioned).
  intros e req w0 Hp.
  destruct (dispatch_step hash_matches e req w0) as (Hu & _).
  by eapply users_step_provisioned.
Qed.

Lemma login_provisioned_result
    (hash_matches : string → string → bool) (req : request) (w : world) :
  provisioned w →
  (∃ r, (login hash_matches req w).1 = Return r)
  ∨ (login hash_matches req w).1 = Raise (HTTPException 400).
Proof.
  intros (u & Hhead & [un Hun] & [h Hh]).
  unfold_views. unfold call_validate_password, getattr_username,
    validate_password, check_password_hash.
  crunch; eauto.
  by destruct (req_method req).
Qed.

(** X4. Once the first user record holds a username and a password hash, as
    [admin] leaves it, no sequence of requests can bring the login view to
    fail with an unhandled error: after any requests, a login request
    returns a response, or is refused as a bad request (400) when a form
    field is missing. *)
Theorem login_never_errors_once_provisioned
    (hash_matches : string → string → bool)
    (requests : list (endpoint * request)) (req : request) (w : world) :
  provisioned w →
  provisioned (serve hash_matches requests w)
  ∧ ((∃ r, (login hash_matches req (serve hash_matches requests w)).1 = Return r)
     ∨ (login hash_matches req (serve hash_matches requests w)).1
       = Raise (HTTPException 400)).
Proof.
  intros Hp. apply (serve_provisioned hash_matches requests) in Hp.
  split; [exact Hp|]. by apply login_provisioned_result.
Qed.

Lemma login_never_errors_once_provisioned_witness :
  provisioned
    (serve plain_matches
       [(ep_settings, post "/settings" [("name", "Boss")])] w_admin)
  ∧ ((∃ r, (login plain_matches
              (post "/login" [("username", "admin"); ("password", "secret")])
              (serve plain_matches
                 [(ep_settings, post "/settings" [("name", "Boss")])]
                 w_admin)).1 = Return r)
     ∨ (login plain_matches
          (post "/login" [("username", "admin"); ("password", "secret")])
          (serve plain_matches
             [(ep_settings, post "/settings" [("name", "Boss")])]
             w_admin)).1 = Raise (HTTPException 400)).
Proof.
  apply (login_never_errors_once_provisioned plain_matches).
  exists admin_user. by repeat split.
Defined.

(** ** Who can change the tables, and how *)

(** X5. A visitor who is not logged in cannot change a table: whatever the
    endpoint, the method and the form, the user table and the movie table
    are after the request what they were before it. *)
Theorem anonymous_requests_change_no_table
    (hash_matches : string → string → bool)
    (e : endpoint) (req : request) (w : world) :
  authenticated w = false →
  users (full_dispatch_request (view_function hash_matches e) req w).2 = users w
  ∧ movies (full_dispatch_request (view_function hash_matches e) req w).2
    = movies w.
Proof.
  intros Ha.
  destruct (full_dispatch_request_frame (view_function hash_matches e) req w)
    as (-> & -> & _).
  unfold authenticated in Ha.
  destruct e; unfold_views; crunch; by rewrite ?Ha in *.
Qed.

Lemma anonymous_requests_change_no_table_witness :
  users (full_dispatch_request (view_function plain_matches ep_settings)
           (post "/settings" [("name", "Mallory")]) w_anonymous).2
    = users w_anonymous
  ∧ movies (full_dispatch_request (view_function plain_matches ep_settings)
              (post "/settings" [("name", "Mallory")]) w_anonymous).2
    = movies w_anonymous.
Proof.
  apply (anonymous_requests_change_no_table plain_matches ep_settings
           (post "/settings" [("name", "Mallory")]) w_anonymous).
  reflexivity.
Defined.

(** X6. A GET request changes no table, whoever sends it; and the only
    endpoint where a GET changes the session is logout. *)
Theorem get_requests_change_no_table
    (hash_matches : string → string → bool)
    (e : endpoint) (req : request) (w : world) :
  req_method req = GET →
  users (full_dispatch_request (view_function hash_matches e) req w).2 = users w
  ∧ movies (full_dispatch_request (view_function hash_matches e) req w).2
    = movies w
  ∧ (e ≠ ep_logout →
     session_user_id
       (full_dispatch_request (view_function hash_matches e) req w).2
     = session_user_id w).
Proof.
  intros Hm.
  destruct (full_dispatch_request_frame (view_function hash_matches e) req w)
    as (-> & -> & -> & _).
  destruct e; unfold_views; rewrite ?Hm; crunch; by repeat split.
Qed.

Lemma get_requests_change_no_table_witness :
  users (full_dispatch_request (view_function plain_matches (ep_edit 1))
           (Request GET "/movie/edit/1" ∅) w_catalog).2 = users w_catalog
  ∧ movies (full_dispatch_request (view_function plain_matches (ep_edit 1))
              (Request GET "/movie/edit/1" ∅) w_catalog).2 = movies w_catalog
  ∧ (ep_edit 1 ≠ ep_logout →
     session_user_id
       (full_dispatch_request (view_function plain_matches (ep_edit 1))
          (Request GET "/movie/edit/1" ∅) w_catalog).2
     = session_user_id w_catalog).
Proof.
  apply (get_requests_change_no_table plain_matches (ep_edit 1)
           (Request GET "/movie/edit/1" ∅) w_catalog).
  reflexivity.
Defined.

(** X7. The delete endpoint takes POST only: a GET to it, even in an
    authenticated session and for an existing movie, is answered 405 and
    changes nothing at all, not even the flash queue. So is a POST to the
    logout endpoint. *)
Theorem wrong_method_changes_nothing
    (movie_id : nat) (path : string) (fields : gmap string string) (w : world) :
  full_dispatch_request (delete movie_id) (Request GET path fields) w
    = (ErrorPage 405, w)
  ∧ full_dispatch_request logout (Request POST path fields) w
    = (ErrorPage 405, w).
Proof. by split. Qed.

(** ** Logging out *)

(** X9. A GET to logout in an authenticated session removes the user id from
    the session, queues 'Goodbye.' and redirects to the catalog; the tables
    are untouched. The session is anonymous afterwards: a POST to the
    catalog index that follows is redirected without creating anything. *)
Theorem logout_ends_session (req req' : request) (w : world) :
  req_method req = GET →
  authenticated w = true →
  req_method req' = POST →
  logout req w =
    (Return (Redirect "/"),
     set_flashes (λ q, q ++ [("message", "Goodbye.")])
       (set_session_user_id None w))
  ∧ authenticated (logout req w).2 = false
  ∧ index req' (logout req w).2 = (Return (Redirect "/"), (logout req w).2).
Proof.
  intros Hm Ha Hm'.
  assert (H : logout req w =
    (Return (Redirect "/"),
     set_flashes (λ q, q ++ [("message", "Goodbye.")])
       (set_session_user_id None w))).
  { unfold logout, route. rewrite Hm. cbn [existsb method_eqb orb].
    by rewrite login_required_authenticated. }
  rewrite H. split; [reflexivity|]. split; [reflexivity|].
  by apply index_post_anonymous.
Qed.

Lemma logout_ends_session_witness :
  logout (Request GET "/logout" ∅) w_admin =
    (Return (Redirect "/"),
     World [admin_user] [] None [("message", "Goodbye.")])
  ∧ authenticated (logout (Request GET "/logout" ∅) w_admin).2 = false
  ∧ index (post "/" [("title", "Leon"); ("year", "1994")])
      (logout (Request GET "/logout" ∅) w_admin).2 =
    (Return (Redirect "/"), (logout (Request GET "/logout" ∅) w_admin).2).
Proof.
  apply (logout_ends_session (Request GET "/logout" ∅)
           (post "/" [("title", "Leon"); ("year", "1994")]) w_admin);
    reflexivity.
Defined.

(** ** Forms with blank or missing fields *)

(** X10. A login POST with the username or the password blank is turned away
    with 'Invalid input.' and a redirect to the login view before the user
    table is read: the session is untouched, and the answer is the same
    when the user table is empty. *)
Theorem login_rejects_blank_fields
    (hash_matches : string → string → bool)
    (req : request) (w : world) (username password : string) :
  req_method req = POST →
  form req !! "username" = Some username →
  form req !! "password" = Some password →
  username = "" ∨ password = "" →
  login hash_matches req w =
  (Return (Redirect "/login"),
   set_flashes (λ q, q ++ [("message", "Invalid input.")]) w).
Proof.
  intros Hm Hu Hp Hblank. unfold login, route.
  rewrite Hm. cbn [existsb method_eqb orb].
  unfold form_getitem. rewrite Hu, Hp, !bind_ret_run.
  assert (negb (truthy (Some username)) || negb (truthy (Some password)) = true)
    as ->; [|reflexivity].
  destruct Hblank as [->| ->]; [reflexivity|]. cbn. apply orb_true_r.
Qed.

Lemma login_rejects_blank_fields_witness :
  login plain_matches
    (post "/login" [("username", "admin"); ("password", "")]) w_empty =
  (Return (Redirect "/login"), World [] [] None [("message", "Invalid input.")]).
Proof.
  apply (login_rejects_blank_fields plain_matches
           (post "/login" [("username", "admin"); ("password", "")])
           w_empty "admin" "");
    first [reflexivity | by right].
Defined.

(** X11. The login, settings and edit views index the form with [form[key]]:
    a POST that lacks a field they read is answered 400 Bad Request and
    changes nothing, no flash included. *)
Theorem missing_form_field_is_bad_request
    (hash_matches : string → string → bool)
    (movie_id : nat) (req : request) (w : world) :
  req_method req = POST →
  (form req !! "username" = None ∨ form req !! "password" = None →
   full_dispatch_request (login hash_matches) req w = (ErrorPage 400, w))
  ∧ (authenticated w = true → form req !! "name" = None →
     full_dispatch_request settings req w = (ErrorPage 400, w))
  ∧ (authenticated w = true → is_Some (get movie_id w) →
     form req !! "title" = None ∨ form req !! "year" = None →
     full_dispatch_request (edit movie_id) req w = (ErrorPage 400, w)).
Proof.
  intros Hm. unfold full_dispatch_request. split; [|split].
  - intros Hnone. unfold login, route, form_getitem.
    rewrite Hm. cbn [existsb method_eqb orb].
    destruct (form req !! "username") as [username|]; [|reflexivity].
    destruct Hnone as [?| ->]; [done|]. reflexivity.
  - intros Ha Hnone. unfold settings, route.
    rewrite Hm. cbn [existsb method_eqb orb].
    rewrite login_required_authenticated by done.
    unfold form_getitem. by rewrite Hm, Hnone.
  - intros Ha [movie Hg] Hnone. unfold edit, route.
    rewrite Hm. cbn [existsb method_eqb orb].
    rewrite login_required_authenticated by done.
    rewrite bind_run, (Movie_query_get_or_404_found movie_id w movie Hg), Hm.
    cbn [method_eqb]. unfold form_getitem.
    destruct (form req !! "title") as [title|]; [|reflexivity].
    destruct Hnone as [?| ->]; [done|]. reflexivity.
Qed.

Lemma missing_form_field_is_bad_request_witness :
  full_dispatch_request (login plain_matches)
    (post "/login" [("username", "admin")]) w_anonymous
  = (ErrorPage 400, w_anonymous).
Proof.
  apply (missing_form_field_is_bad_request plain_matches 1
           (post "/login" [("username", "admin")]) w_anonymous);
    first [reflexivity | by right].
Defined.

(** ** A valid change of the display name *)

Lemma session_user_some (w : world) (cu : User.t) :
  session_user w = Some cu →
  session_user_id w = Some (User.id cu) ∧ cu ∈ users w.
Proof.
  unfold session_user. destruct (session_user_id w) as [n|]; [|done].
  intros [Hin Hid]%List.find_some. apply Nat.eqb_eq in Hid as <-.
  split; [done | by apply list_elem_of_In].
Qed.

Lemma find_user_renamed (us : list User.t) (n : nat) (name : string) :
  List.find (λ u, Nat.eqb (User.id u) n)
    ((λ u, if Nat.eqb (User.id u) n
           then User.mk (User.id u) name (User.username u)
                  (User.password_hash u)
           else u) <$> us) =
  renamed name <$> List.find (λ u, Nat.eqb (User.id u) n) us.
Proof.
  induction us as [|u us IH]; [reflexivity|]. cbn.
  destruct (Nat.eqb (User.id u) n) eqn:E; cbn; by rewrite E.
Qed.

(** X12. An authenticated settings POST with a name of 1 to 20 characters
    (20 included) stores the name on the current user's record, queues
    'Settings updated.' and redirects to the catalog. The record keeps its
    id, username and password hash, records with another id are kept as
    they are, the movie table is untouched, and the session stays
    authenticated, as the renamed user. *)
Theorem settings_renames_current_user
    (req : request) (w : world) (cu : User.t) (name : string) :
  req_method req = POST →
  session_user w = Some cu →
  form req !! "name" = Some name →
  name ≠ "" → String.length name ≤ 20 →
  settings req w =
    (Return (Redirect "/"),
     set_flashes (λ q, q ++ [("message", "Settings updated.")])
       (set_users
          (fmap (λ u, if Nat.eqb (User.id u) (User.id cu)
                      then renamed name u else u)) w))
  ∧ session_user (settings req w).2 = Some (renamed name cu)
  ∧ movies (settings req w).2 = movies w
  ∧ (∀ u, u ∈ users w → User.id u ≠ User.id cu → u ∈ users (settings req w).2).
Proof.
  intros Hm Hcu Hn Hn0 Hlen.
  assert (Ha : authenticated w = true) by (unfold authenticated; by rewrite Hcu).
  assert (H : settings req w =
    (Return (Redirect "/"),
     set_flashes (λ q, q ++ [("message", "Settings updated.")])
       (set_users
          (fmap (λ u, if Nat.eqb (User.id u) (User.id cu)
                      then renamed name u else u)) w))).
  { unfold settings, route. rewrite Hm. cbn [existsb method_eqb orb].
    rewrite login_required_authenticated by done.
    rewrite Hm. cbn [method_eqb].
    unfold form_getitem. rewrite Hn, bind_ret_run.
    apply String.eqb_neq in Hn0. apply Nat.ltb_ge in Hlen.
    unfold truthy. rewrite Hn0, Hlen. cbn [negb orb].
    rewrite bind_run, current_user_run, Hcu. reflexivity. }
  rewrite H. split; [reflexivity|].
  destruct (session_user_some w cu Hcu) as [Hsid Hin].
  split; [|split; [reflexivity|]].
  - unfold session_user in *. cbn. rewrite Hsid in *.
    unfold renamed at 1. by rewrite find_user_renamed, Hcu.
  - intros u Hu Hne. cbn. apply list_elem_of_fmap. exists u.
    apply Nat.eqb_neq in Hne. by rewrite Hne.
Qed.

Lemma settings_renames_current_user_witness :
  settings (post "/settings" [("name", "Twenty characters ok")]) w_admin =
    (Return (Redirect "/"),
     World [User.mk 1 "Twenty characters ok" (Some "admin") (Some "plain$secret")]
       [] (Some 1) [("message", "Settings updated.")]).
Proof.
  apply (settings_renames_current_user
           (post "/settings" [("name", "Twenty characters ok")]) w_admin
           admin_user "Twenty characters ok");
    first [reflexivity | discriminate | cbn; lia].
Defined.

(** ** Editing a movie *)

Lemma app_nil_r (s : string) : s +:+ "" = s.
Proof. induction s as [|c s IH]; [reflexivity|]. by rewrite app_cons, IH. Qed.

Lemma url_for_edit (movie_id : string) (w : world) :
  url_for "edit" [("movie_id", movie_id)] w =
  (Return ("/movie/edit/" +:+ movie_id), w).
Proof.
  assert (url_for "edit" [("movie_id", movie_id)] w =
          (Return ("/movie/edit/" +:+ (movie_id +:+ "")), w)) as ->
    by reflexivity.
  by rewrite app_nil_r.
Qed.

Lemma edit_post_run
    (movie_id : nat) (req : request) (w : world) (movie : Movie.t)
    (title year : string) :
  req_method req = POST →
  authenticated w = true →
  get movie_id w = Some movie →
  form req !! "title" = Some title →
  form req !! "year" = Some year →
  edit movie_id req w =
  if invalid_input title year then
    (Return (Redirect ("/movie/edit/" +:+ str_of_nat movie_id)),
     set_flashes (λ q, q ++ [("message", "Invalid input.")]) w)
  else
    (Return (Redirect "/"),
     set_flashes (λ q, q ++ [("message", "Item updated.")])
       (set_movies
          (fmap (λ m, if Nat.eqb (Movie.id m) movie_id
                      then Movie.mk (Movie.id m) title year else m)) w)).
Proof.
  intros Hm Ha Hg Ht Hy. unfold edit, route.
  rewrite Hm. cbn [existsb method_eqb orb].
  rewrite login_required_authenticated by done.
  rewrite bind_run, (Movie_query_get_or_404_found movie_id w movie Hg), Hm.
  destruct (get_some_id _ _ _ Hg) as [<- _].
  cbn [method_eqb]. unfold form_getitem. rewrite Ht, Hy.
  rewrite !bind_ret_run.
  destruct (invalid_input title year); [|reflexivity].
  rewrite bind_run. unfold flash, modify. cbv beta iota.
  by rewrite bind_run, url_for_edit.
Qed.

Lemma find_movie_updated_eq (ms : list Movie.t) (n : nat) (title year : string) :
  List.find (λ m, Nat.eqb (Movie.id m) n)
    ((λ m, if Nat.eqb (Movie.id m) n
           then Movie.mk (Movie.id m) title year else m) <$> ms) =
  (λ m, Movie.mk (Movie.id m) title year)
    <$> List.find (λ m, Nat.eqb (Movie.id m) n) ms.
Proof.
  induction ms as [|m ms IH]; [reflexivity|]. cbn.
  destruct (Nat.eqb (Movie.id m) n) eqn:E; cbn; by rewrite E.
Qed.

Lemma find_movie_updated_ne (ms : list Movie.t) (n k : nat) (title year : string) :
  k ≠ n →
  List.find (λ m, Nat.eqb (Movie.id m) k)
    ((λ m, if Nat.eqb (Movie.id m) n
           then Movie.mk (Movie.id m) title year else m) <$> ms) =
  List.find (λ m, Nat.eqb (Movie.id m) k) ms.
Proof.
  intros Hne. induction ms as [|m ms IH]; [reflexivity|]. cbn.
  destruct (Nat.eqb (Movie.id m) n) eqn:E; cbn.
  - apply Nat.eqb_eq in E. rewrite E.
    apply not_eq_sym, Nat.eqb_neq in Hne. by rewrite Hne.
  - by rewrite IH.
Qed.

(** X13. An authenticated edit POST with a valid title and year for an existing
    movie overwrites both fields of that record and nothing else: [get] on
    the id returns the record with the new title and year, [get] on any
    other id returns what it returned before, and the ids of the catalog,
    in order, are the same, so no record is added, dropped or moved. *)
Theorem edit_updates_one_record
    (movie_id : nat) (req : request) (w : world) (movie : Movie.t)
    (title year : string) :
  req_method req = POST →
  authenticated w = true →
  get movie_id w = Some movie →
  form req !! "title" = Some title →
  form req !! "year" = Some year →
  title ≠ "" → String.length title ≤ 60 →
  year ≠ "" → String.length year = 4 →
  (edit movie_id req w).1 = Return (Redirect "/")
  ∧ get movie_id (edit movie_id req w).2 = Some (Movie.mk movie_id title year)
  ∧ (∀ k, k ≠ movie_id → get k (edit movie_id req w).2 = get k w)
  ∧ movie_ids (edit movie_id req w).2 = movie_ids w
  ∧ users (edit movie_id req w).2 = users w.
Proof.
  intros Hm Ha Hg Ht Hy Ht0 Htl Hy0 Hyl.
  rewrite (edit_post_run movie_id req w movie title year) by done.
  rewrite invalid_input_accepted by done.
  destruct (get_some_find _ _ _ Hg) as [Hr Hf].
  destruct (get_some_id _ _ _ Hg) as [Hid _].
  split; [reflexivity|]. cbn [snd].
  split; [|split; [|split; [|reflexivity]]].
  - rewrite get_in_range by done. cbn [movies set_flashes set_movies].
    rewrite find_movie_updated_eq, Hf. cbn. by rewrite Hid.
  - intros k Hk. unfold get, Movie_query_get.
    destruct (sqlite_integer k); [|reflexivity].
    rewrite !bind_run. cbn. by rewrite find_movie_updated_ne.
  - unfold movie_ids. cbn.
    rewrite <- list_fmap_compose. apply list_fmap_ext.
    intros i m _. cbn. by destruct (Nat.eqb (Movie.id m) movie_id).
Qed.

Lemma edit_updates_one_record_witness :
  (edit 1 (post "/movie/edit/1" [("title", "Arrival (2016)"); ("year", "2017")])
     w_catalog).1 = Return (Redirect "/")
  ∧ get 1
      (edit 1 (post "/movie/edit/1" [("title", "Arrival (2016)"); ("year", "2017")])
         w_catalog).2 = Some (Movie.mk 1 "Arrival (2016)" "2017").
Proof.
  split;
    apply (edit_updates_one_record 1
             (post "/movie/edit/1" [("title", "Arrival (2016)"); ("year", "2017")])
             w_catalog arrival "Arrival (2016)" "2017");
    first [reflexivity | discriminate | cbn; lia].
Defined.

(** X14. An authenticated edit POST with an invalid title or year for an
    existing movie changes no record, queues 'Invalid input.' and redirects
    to the edit form of the same movie, [/movie/edit/<id>]. *)
Theorem edit_rejects_invalid_input
    (movie_id : nat) (req : request) (w : world) (movie : Movie.t)
    (title year : string) :
  req_method req = POST →
  authenticated w = true →
  get movie_id w = Some movie →
  form req !! "title" = Some title →
  form req !! "year" = Some year →
  rejected_fields (Some title) (Some year) →
  edit movie_id req w =
  (Return (Redirect ("/movie/edit/" +:+ str_of_nat movie_id)),
   set_flashes (λ q, q ++ [("message", "Invalid input.")]) w).
Proof.
  intros Hm Ha Hg Ht Hy Hr.
  rewrite (edit_post_run movie_id req w movie title year) by done.
  by rewrite invalid_input_rejected.
Qed.

Lemma edit_rejects_invalid_input_witness :
  edit 1 (post "/movie/edit/1" [("title", "Arrival"); ("year", "16")]) w_catalog =
  (Return (Redirect "/movie/edit/1"),
   World [admin_user] [arrival] (Some 1) [("message", "Invalid input.")]).
Proof.
  apply (edit_rejects_invalid_input 1
           (post "/movie/edit/1" [("title", "Arrival"); ("year", "16")])
           w_catalog arrival "Arrival" "16");
    try reflexivity.
  do 5 right. exists "16". by split.
Defined.

(** X15. In an authenticated session, the edit endpoint looks the movie up
    before everything else, whatever the method and the form. For an id
    that is not in the catalog the answer is the 404 page, also when the
    form is invalid or incomplete; the page shows the flash messages that
    were waiting, and the tables and the session are unchanged. That holds
    for an id within the 64-bit integers of SQLite: a larger id, which the
    URL may well carry, makes the lookup raise [OverflowError], and the
    request ends in a 500 page with nothing changed. *)
Theorem edit_unknown_movie_is_404 (movie_id : nat) (req : request) (w : world) :
  authenticated w = true →
  get movie_id w = None →
  full_dispatch_request (edit movie_id) req w =
  if sqlite_integer movie_id
  then (Page 404 "404.html" [("user", VUser (head (users w)))] (flashes w),
        set_flashes (λ _, []) w)
  else (ErrorPage 500, w).
Proof.
  intros Ha Hg. unfold full_dispatch_request, edit, route.
  assert (existsb (method_eqb (req_method req)) [GET; POST] = true) as ->
    by (by destruct (req_method req)).
  rewrite login_required_authenticated by done.
  destruct (sqlite_integer movie_id) eqn:Hr.
  - by rewrite bind_run, (Movie_query_get_or_404_missing movie_id w Hr Hg).
  - unfold Movie_query_get_or_404, Movie_query_get.
    rewrite !bind_run, Hr. reflexivity.
Qed.

Lemma edit_unknown_movie_is_404_witness :
  full_dispatch_request (edit 7)
    (post "/movie/edit/7" [("title", "")]) w_catalog =
  (Page 404 "404.html" [("user", VUser (Some admin_user))] [],
   w_catalog).
Proof.
  apply (edit_unknown_movie_is_404 7
           (post "/movie/edit/7" [("title", "")]) w_catalog); reflexivity.
Defined.

(** ** Deleting exactly one record *)

Lemma filter_id_above (ms : list Movie.t) (n : nat) :
  (∀ m, m ∈ ms → Movie.id m ≠ n) →
  List.filter (λ m, negb (Nat.eqb (Movie.id m) n)) ms = ms.
Proof.
  induction ms as [|m ms IH]; intros H; [reflexivity|]. cbn.
  assert (Movie.id m ≠ n) as Hne by (apply H; left).
  apply Nat.eqb_neq in Hne. rewrite Hne. cbn. f_equal.
  apply IH. intros m' Hm'. apply H. by right.
Qed.

Lemma delete_split (ms : list Movie.t) (n : nat) (movie : Movie.t) :
  NoDup (Movie.id <$> ms) →
  List.find (λ m, Nat.eqb (Movie.id m) n) ms = Some movie →
  ∃ before after,
    ms = before ++ movie :: after
    ∧ List.filter (λ m, negb (Nat.eqb (Movie.id m) n)) ms = before ++ after.
Proof.
  induction ms as [|m ms IH]; [done|]. cbn.
  intros [Hm Hnd]%NoDup_cons.
  destruct (Nat.eqb (Movie.id m) n) eqn:E; cbn.
  - intros [= ->]. apply Nat.eqb_eq in E. exists [], ms. split; [done|]. cbn.
    apply filter_id_above. intros m' Hm' Heq. apply Hm.
    apply list_elem_of_fmap. exists m'. split; [congruence | done].
  - intros Hfind. destruct (IH Hnd Hfind) as (before & after & -> & Hf).
    exists (m :: before), after. split; [done|]. cbn. by rewrite Hf.
Qed.

(** X16. With distinct ids in the catalog, an authenticated delete POST for an
    existing movie takes out that one record and leaves the others where
    they are: the catalog splits around the record, and what is left is the
    records before it followed by the records after it, one fewer in
    all. *)
Theorem delete_removes_exactly_one
    (movie_id : nat) (req : request) (w : world) (movie : Movie.t) :
  req_method req = POST →
  authenticated w = true →
  NoDup (movie_ids w) →
  get movie_id w = Some movie →
  ∃ before after,
    list_all w = before ++ movie :: after
    ∧ list_all (delete movie_id req w).2 = before ++ after
    ∧ S (length (list_all (delete movie_id req w).2)) = length (list_all w).
Proof.
  intros Hm Ha Hnd Hg.
  rewrite (delete_post_found movie_id req w movie) by done.
  destruct (get_some_find _ _ _ Hg) as [_ Hfind].
  destruct (delete_split (movies w) movie_id movie Hnd Hfind)
    as (before & after & Hw & Hf).
  exists before, after. cbn [snd]. rewrite !list_all_set, list_all_movies, Hf.
  split; [done|]. split; [done|].
  rewrite Hw, !length_app. cbn. lia.
Qed.

Lemma delete_removes_exactly_one_witness :
  ∃ before after,
    list_all w_catalog = before ++ arrival :: after
    ∧ list_all (delete 1 (post "/movie/delete/1" []) w_catalog).2
      = before ++ after
    ∧ S (length (list_all (delete 1 (post "/movie/delete/1" []) w_catalog).2))
      = length (list_all w_catalog).
Proof.
  apply (delete_removes_exactly_one 1 (post "/movie/delete/1" []) w_catalog
           arrival); try reflexivity.
  cbn. apply NoDup_singleton.
Defined.

(** X17. Creating a movie and then deleting it gives the catalog back: after a
    valid authenticated creation, an authenticated delete POST for the id
    the new record was given leaves the movie table exactly as it was
    before the creation. The id is taken within the 64-bit integers of
    SQLite, as every id it assigns is. *)
Theorem create_then_delete_restores_catalog
    (req req' : request) (w : world) (title year : string) :
  req_method req = POST →
  req_method req' = POST →
  authenticated w = true →
  form req !! "title" = Some title →
  form req !! "year" = Some year →
  title ≠ "" → String.length title ≤ 60 →
  year ≠ "" → String.length year = 4 →
  sqlite_integer (next_id (movie_ids w)) = true →
  movies (delete (next_id (movie_ids w)) req' (index req w).2).2 = movies w.
Proof.
  intros Hm Hm' Ha Ht Hy Ht0 Htl Hy0 Hyl Hr.
  rewrite (index_post_accepted req w title year) by
    (try done; by apply invalid_input_accepted).
  set (new := Movie.mk (next_id (Movie.id <$> movies w)) title year).
  assert (Hfresh : List.find (λ m, Nat.eqb (Movie.id m) (Movie.id new))
                     (movies w) = None).
  { apply find_id_above. intros m. apply next_id_above. }
  erewrite (delete_post_found _ req' _ new); [|done|done|].
  - cbn. rewrite List.filter_app. cbn. rewrite Nat.eqb_refl. cbn.
    rewrite (right_id_L [] (++)). apply filter_id_above.
    intros m Hm0 Heq. apply next_id_above in Hm0. unfold movie_ids in *.
    cbn in Heq. lia.
  - rewrite get_in_range by done.
    change (movies (_, set_flashes _ (set_movies _ w)).2)
      with (movies w ++ [new]).
    change (next_id (movie_ids w)) with (Movie.id new).
    rewrite find_id_app by done. by rewrite Nat.eqb_refl.
Qed.

Lemma create_then_delete_restores_catalog_witness :
  movies (delete (next_id (movie_ids w_catalog)) (post "/movie/delete/2" [])
            (index (post "/" [("title", "Leon"); ("year", "1994")])
               w_catalog).2).2 = movies w_catalog.
Proof.
  apply (create_then_delete_restores_catalog
           (post "/" [("title", "Leon"); ("year", "1994")])
           (post "/movie/delete/2" []) w_catalog "Leon" "1994");
    first [reflexivity | discriminate | cbn; lia].
Defined.

(** ** Provisioning the admin account *)

Section Admin.

Context (generate_password_hash : string → string).

Lemma admin_run (username password : string) (w : world) :
  admin generate_password_hash username password w =
  (Return (),
   set_users (λ us,
     match us with
     | [] =>
         [User.mk 1 "Admin" (Some username)
            (Some (generate_password_hash password))]
     | first :: _ =>
         (λ u, if Nat.eqb (User.id u) (User.id first)
               then User.mk (User.id u) (User.name u) (Some username)
                      (Some (generate_password_hash password))
               else u) <$> us
     end) w).
Proof.
  unfold admin, User_query_first. rewrite !bind_run. cbn.
  unfold modify, set_users.
  destruct (users w) as [|first rest] eqn:E; cbn; by rewrite E.
Qed.

End Admin.

Lemma admin_head (generate_password_hash : string → string)
    (username password : string) (w : world) :
  ∃ first,
    head (users (admin generate_password_hash username password w).2)
      = Some first
    ∧ User.username first = Some username
    ∧ User.password_hash first = Some (generate_password_hash password).
Proof.
  rewrite admin_run. cbn. destruct (users w) as [|first rest]; cbn.
  - eexists. by repeat split.
  - rewrite Nat.eqb_refl. eexists. by repeat split.
Qed.

(** X18. [admin] never adds a second account. On an empty user table it creates
    the user 'Admin' with id 1; otherwise it overwrites the username and the
    password hash of the first user, who keeps id and display name, and the
    table keeps its length. Either way the first user then holds the given
    username and the hash of the given password, and the movie table and
    the session are untouched. *)
Theorem admin_provisions_first_user
    (generate_password_hash : string → string)
    (username password : string) (w : world) :
  provisioned (admin generate_password_hash username password w).2
  ∧ length (users (admin generate_password_hash username password w).2)
    = length (users w) `max` 1
  ∧ head (users (admin generate_password_hash username password w).2)
    = Some (User.mk (from_option User.id 1 (head (users w)))
              (from_option User.name "Admin" (head (users w)))
              (Some username) (Some (generate_password_hash password)))
  ∧ movies (admin generate_password_hash username password w).2 = movies w
  ∧ session_user_id (admin generate_password_hash username password w).2
    = session_user_id w.
Proof.
  rewrite admin_run. unfold provisioned. cbn.
  destruct (users w) as [|first rest]; cbn.
  - split; [|done]. eexists. by repeat split.
  - rewrite Nat.eqb_refl, length_fmap. split; [|split; [lia|done]].
    eexists. by repeat split.
Qed.

(** X19. After [admin] has run with a non-empty username and password, a login
    POST with that username and that password authenticates, as the first
    user, whatever the store held before, provided the password validates
    against the hash generated from it; and a login with a password that
    does not validate against that hash gets the generic failure. *)
Theorem admin_then_login
    (generate_password_hash : string → string)
    (hash_matches : string → string → bool)
    (username password attempt : string) (req : request) (w : world) :
  hash_matches (generate_password_hash password) password = true →
  req_method req = POST →
  form req !! "username" = Some username →
  form req !! "password" = Some attempt →
  username ≠ "" → attempt ≠ "" →
  (attempt = password →
   (login hash_matches req
      (admin generate_password_hash username password w).2).1
     = Return (Redirect "/")
   ∧ authenticated
       (login hash_matches req
          (admin generate_password_hash username password w).2).2 = true)
  ∧ (hash_matches (generate_password_hash password) attempt = false →
     login hash_matches req
       (admin generate_password_hash username password w).2
     = (Return (Redirect "/login"),
        set_flashes
          (λ q, q ++ [("message", "Invalid username or password.")])
          (admin generate_password_hash username password w).2)).
Proof.
  intros Hrt Hm Hu Hp Hu0 Hp0.
  destruct (admin_head generate_password_hash username password w)
    as (first & Hhead & Hun & Hh).
  set (w1 := (admin generate_password_hash username password w).2) in *.
  pose proof (login_post_run hash_matches req w1 username attempt
                Hm Hu Hp Hu0 Hp0) as Hrun.
  rewrite Hhead in Hrun.
  assert (str_eq username (User.username first) = true) as Heq
    by (by apply str_eq_true).
  unfold validate_password, check_password_hash in Hrun.
  rewrite Heq, Hh in Hrun. split.
  - intros ->. rewrite Hrt in Hrun. rewrite Hrun. split; [reflexivity|].
    pose proof (session_user_head w1 first Hhead) as Hs.
    unfold authenticated. unfold session_user in *. cbn in *.
    by rewrite Hs.
  - intros Hbad. by rewrite Hbad in Hrun.
Qed.

Lemma admin_then_login_witness :
  (login plain_matches
     (post "/login" [("username", "root"); ("password", "hunter2")])
     (admin (λ p, "plain$" +:+ p) "root" "hunter2" w_forged).2).1
  = Return (Redirect "/")
  ∧ authenticated
      (login plain_matches
         (post "/login" [("username", "root"); ("password", "hunter2")])
         (admin (λ p, "plain$" +:+ p) "root" "hunter2" w_forged).2).2 = true.
Proof.
  apply (admin_then_login (λ p, "plain$" +:+ p) plain_matches
           "root" "hunter2" "hunter2"
           (post "/login" [("username", "root"); ("password", "hunter2")])
           w_forged);
    first [reflexivity | discriminate].
Defined.

(** ** Seeding the database *)

Lemma forge_run (w : world) :
  forge w =
  (Return (),
   set_movies (λ ms, foldl insert_movie ms forge_movies)
     (set_users
        (λ us, us ++ [User.mk (next_id (User.id <$> us)) forge_name None None])
        w)).
Proof. reflexivity. Qed.

Lemma foldl_insert_movie (l : list (string * string)) (ms : list Movie.t) :
  ∃ added,
    foldl insert_movie ms l = ms ++ added
    ∧ (λ m, (Movie.title m, Movie.year m)) <$> added = l
    ∧ (NoDup (Movie.id <$> ms) → NoDup (Movie.id <$> (ms ++ added))).
Proof.
  revert ms. induction l as [|[title year] l IH]; intros ms.
  - exists []. rewrite (right_id_L [] (++)). by repeat split.
  - cbn [foldl]. destruct (IH (insert_movie ms (title, year)))
      as (added & Heq & Hty & Hnd).
    exists (Movie.mk (next_id (Movie.id <$> ms)) title year :: added).
    unfold insert_movie in *. cbn in *.
    rewrite <- (assoc_L (++)) in Heq, Hnd. cbn in *.
    split; [exact Heq|]. split; [by rewrite Hty|].
    intros Hms. apply Hnd.
    apply (movies_step_ids_nodup ms); [apply movies_added | exact Hms].
Qed.

(** X20. [forge] appends its ten movies to the catalog, in the order of its
    list and with the titles and years of the list, whatever the catalog
    held: existing records are kept, distinct ids stay distinct, and every
    seeded record passes the validation of the index and edit forms. It
    also appends one user, who has a display name but neither username nor
    password hash. *)
Theorem forge_seeds_catalog (w : world) :
  ∃ added,
    movies (forge w).2 = movies w ++ added
    ∧ (λ m, (Movie.title m, Movie.year m)) <$> added = forge_movies
    ∧ length (movies (forge w).2) = length (movies w) + 10
    ∧ (NoDup (movie_ids w) → NoDup (movie_ids (forge w).2))
    ∧ Forall (λ m, invalid_input (Movie.title m) (Movie.year m) = false) added
    ∧ users (forge w).2 =
        users w ++ [User.mk (next_id (User.id <$> users w)) "Grey Li" None None].
Proof.
  assert (Hm : movies (forge w).2 = foldl insert_movie (movies w) forge_movies)
    by reflexivity.
  assert (Hu : users (forge w).2 =
    users w ++ [User.mk (next_id (User.id <$> users w)) "Grey Li" None None])
    by reflexivity.
  destruct (foldl_insert_movie forge_movies (movies w))
    as (added & Heq & Hty & Hnd).
  exists added. unfold movie_ids. rewrite Hm, Hu, Heq.
  split; [done|]. split; [done|]. split; [|split; [done|split; [|done]]].
  - rewrite length_app. f_equal.
    apply (f_equal length) in Hty. by rewrite length_fmap in Hty.
  - assert (Forall (λ p : string * string, invalid_input p.1 p.2 = false)
              forge_movies) as Hall
      by (repeat constructor).
    rewrite <- Hty in Hall. by apply Forall_fmap in Hall.
Qed.

(** X21. On a database whose user table is empty, [forge] alone lets nobody in:
    its user has no username, so every login POST with username and
    password filled in gets the generic failure and leaves the session as
    it was, whatever the hash function; the login view does not fail with
    an error, as it does while the table is empty. *)
Theorem forge_alone_admits_no_login
    (hash_matches : string → string → bool)
    (req : request) (w : world) (username password : string) :
  users w = [] →
  req_method req = POST →
  form req !! "username" = Some username →
  form req !! "password" = Some password →
  username ≠ "" → password ≠ "" →
  login hash_matches req (forge w).2 =
  (Return (Redirect "/login"),
   set_flashes (λ q, q ++ [("message", "Invalid username or password.")])
     (forge w).2).
Proof.
  intros Hempty Hm Hu Hp Hu0 Hp0.
  rewrite (login_post_run hash_matches req _ username password) by done.
  rewrite forge_run. cbn. by rewrite Hempty.
Qed.

Lemma forge_alone_admits_no_login_witness :
  (login plain_matches
     (post "/login" [("username", "Grey Li"); ("password", "secret")])
     (forge w_empty).2).1 = Return (Redirect "/login")
  ∧ session_user_id
      (login plain_matches
         (post "/login" [("username", "Grey Li"); ("password", "secret")])
         (forge w_empty).2).2 = None.
Proof.
  rewrite (forge_alone_admits_no_login plain_matches
             (post "/login" [("username", "Grey Li"); ("password", "secret")])
             w_empty "Grey Li" "secret");
    first [by split | reflexivity | discriminate].
Defined.

(** ** More on the user page *)

Lemma markup_chars_in (c : ascii) :
  c ∈ markup_chars ↔
  c = "&"%char ∨ c = ">"%char ∨ c = "<"%char ∨ c = "'"%char ∨ c = quot.
Proof.
  unfold markup_chars. rewrite list_elem_of_In. cbn. intuition congruence.
Qed.

Lemma escape_char_cases (c : ascii) :
  (c = "&"%char ∧ escape_char c = "&amp;")
  ∨ (c = ">"%char ∧ escape_char c = "&gt;")
  ∨ (c = "<"%char ∧ escape_char c = "&lt;")
  ∨ (c = "'"%char ∧ escape_char c = "&#39;")
  ∨ (c = quot ∧ escape_char c = "&#34;")
  ∨ ((c ∉ markup_chars) ∧ escape_char c = String c "").
Proof.
  unfold escape_char.
  destruct (Ascii.eqb_spec c "&"); [by left|]. right.
  destruct (Ascii.eqb_spec c ">"); [by left|]. right.
  destruct (Ascii.eqb_spec c "<"); [by left|]. right.
  destruct (Ascii.eqb_spec c "'"); [by left|]. right.
  destruct (Ascii.eqb_spec c quot); [by left|]. right.
  split; [|done]. rewrite markup_chars_in. intuition congruence.
Qed.

Lemma occurs_false_cons (c c' : ascii) (s : string) :
  occurs c (String c' s) = false → c' ≠ c ∧ occurs c s = false.
Proof.
  cbn [occurs]. intros [H1 H2]%orb_false_iff. split; [|done].
  by apply Ascii.eqb_neq.
Qed.

Lemma escape_plain (name : string) :
  (∀ c, c ∈ markup_chars → occurs c name = false) →
  escape name = name.
Proof.
  induction name as [|c name IH]; intros H; [reflexivity|].
  assert (Hc : c ∉ markup_chars).
  { intros Hin. by destruct (occurs_false_cons c c name (H c Hin)). }
  rewrite escape_cons, IH.
  - rewrite markup_chars_in in Hc.
    destruct (escape_char_cases c)
      as [[? _]|[[? _]|[[? _]|[[? _]|[[? _]|[_ ->]]]]]];
      [exfalso; apply Hc; tauto..|reflexivity].
  - intros c' Hc'. by apply (occurs_false_cons c' c name), H.
Qed.

(** X22. A name that holds none of the five markup characters is shown as it
    is: the body of the user page is 'User Page : ' followed by the name,
    unchanged. *)
Theorem user_page_plain_name (name : string) (req : request) (w : world) :
  req_method req = GET →
  (∀ c, c ∈ markup_chars → occurs c name = false) →
  user_page name req w = (Return (Text ("User Page : " +:+ name)), w).
Proof.
  intros Hm Hplain. unfold user_page, route. rewrite Hm. cbn [existsb method_eqb orb].
  by rewrite escape_plain.
Qed.

Lemma user_page_plain_name_witness :
  user_page "jenney" (Request GET "/user/jenney" ∅) w_anonymous =
  (Return (Text "User Page : jenney"), w_anonymous).
Proof.
  apply (user_page_plain_name "jenney" (Request GET "/user/jenney" ∅) w_anonymous);
    [reflexivity|].
  intros c Hc. apply markup_chars_in in Hc.
  destruct Hc as [->|[->|[->|[->| ->]]]]; reflexivity.
Defined.

Lemma escape_cons_inj (c1 c2 : ascii) (r1 r2 : string) :
  escape_char c1 +:+ r1 = escape_char c2 +:+ r2 → c1 = c2 ∧ r1 = r2.
Proof.
  destruct (escape_char_cases c1) as [[-> ->]|[[-> ->]|[[-> ->]|[[-> ->]|[[-> ->]|[H1 ->]]]]]];
  destruct (escape_char_cases c2) as [[-> ->]|[[-> ->]|[[-> ->]|[[-> ->]|[[-> ->]|[H2 ->]]]]]];
    rewrite ?markup_chars_in in *;
    cbv [String.append]; intros Heq; simplify_eq; try done;
    exfalso; tauto.
Qed.

Lemma escape_inj (s1 s2 : string) : escape s1 = escape s2 → s1 = s2.
Proof.
  revert s2. induction s1 as [|c1 s1 IH]; intros [|c2 s2].
  - done.
  - rewrite escape_cons. change (escape "") with "".
    destruct (escape_char_cases c2) as [[_ ->]|[[_ ->]|[[_ ->]|[[_ ->]|[[_ ->]|[_ ->]]]]]];
      cbv [String.append]; discriminate.
  - rewrite escape_cons. change (escape "") with "".
    destruct (escape_char_cases c1) as [[_ ->]|[[_ ->]|[[_ ->]|[[_ ->]|[[_ ->]|[_ ->]]]]]];
      cbv [String.append]; discriminate.
  - rewrite !escape_cons. intros [-> Hr]%escape_cons_inj.
    by rewrite (IH s2 Hr).
Qed.

(** X23. Escaping loses nothing of the name: two names that differ are
    answered with bodies that differ. *)
Theorem user_page_distinguishes_names
    (name1 name2 : string) (req1 req2 : request) (w : world) :
  req_method req1 = GET →
  req_method req2 = GET →
  name1 ≠ name2 →
  (user_page name1 req1 w).1 ≠ (user_page name2 req2 w).1.
Proof.
  intros Hm1 Hm2 Hne. unfold user_page, route.
  rewrite Hm1, Hm2. cbn [existsb method_eqb orb].
  cbn. intros [= Heq]. apply Hne, escape_inj. exact Heq.
Qed.

Lemma user_page_distinguishes_names_witness :
  (user_page "&amp;" (Request GET "/user/&amp;" ∅) w_anonymous).1
  ≠ (user_page "&" (Request GET "/user/&" ∅) w_anonymous).1.
Proof.
  apply (user_page_distinguishes_names "&amp;" "&");
    [reflexivity | reflexivity | discriminate].
Defined.

(** ** How a session becomes authenticated *)

(** X8. The session's user id changes at two endpoints only. Logout can clear
    it; login can set it, and then to the id of the first user record.
    Every other request, whatever its method, form and outcome, leaves the
    session's user id as it was. *)
Theorem session_changes_only_at_login_and_logout
    (hash_matches : string → string → bool)
    (e : endpoint) (req : request) (w : world) :
  session_user_id (full_dispatch_request (view_function hash_matches e) req w).2
    = session_user_id w
  ∨ (e = ep_logout
     ∧ session_user_id
         (full_dispatch_request (view_function hash_matches e) req w).2 = None)
  ∨ (e = ep_login
     ∧ ∃ first, head (users w) = Some first
         ∧ session_user_id
             (full_dispatch_request (view_function hash_matches e) req w).2
           = Some (User.id first)).
Proof.
  destruct (full_dispatch_request_frame (view_function hash_matches e) req w)
    as (_ & _ & -> & _).
  destruct e; unfold_views; crunch;
    first [ by left
          | right; left; by split
          | right; right; split; [done|]; eexists; by split ].
Qed.

(** ** Dropping the tables *)

(** X24. [initdb --drop] empties both tables and touches no session cookie, so
    a session that was authenticated is anonymous afterwards and a POST to
    the catalog index with it creates nothing; a login POST then fails with
    the error of the empty user table. Without [--drop] nothing changes. *)
Theorem initdb_drop_resets
    (hash_matches : string → string → bool)
    (req req' : request) (w : world) (username password : string) :
  req_method req = POST →
  req_method req' = POST →
  form req' !! "username" = Some username →
  form req' !! "password" = Some password →
  username ≠ "" → password ≠ "" →
  list_all (initdb true w).2 = []
  ∧ users (initdb true w).2 = []
  ∧ authenticated (initdb true w).2 = false
  ∧ index req (initdb true w).2 = (Return (Redirect "/"), (initdb true w).2)
  ∧ (login hash_matches req' (initdb true w).2).1 = Raise AttributeError
  ∧ (initdb false w).2 = w.
Proof.
  intros Hm Hm' Hu Hp Hu0 Hp0.
  assert (Ha : authenticated (initdb true w).2 = false).
  { unfold authenticated, session_user. cbn.
    by destruct (session_user_id w). }
  repeat split; try done.
  - by apply index_post_anonymous.
  - by rewrite (login_post_run hash_matches req' _ username password).
Qed.

Lemma initdb_drop_resets_witness :
  authenticated (initdb true w_catalog).2 = false
  ∧ index (post "/" [("title", "Leon"); ("year", "1994")])
      (initdb true w_catalog).2
    = (Return (Redirect "/"), (initdb true w_catalog).2).
Proof.
  destruct (initdb_drop_resets plain_matches
              (post "/" [("title", "Leon"); ("year", "1994")])
              (post "/login" [("username", "admin"); ("password", "secret")])
              w_catalog "admin" "secret")
    as (_ & _ & H1 & H2 & _);
    first [reflexivity | discriminate | by split].
Defined.
